(** * Conjure station core: ingest decoder, connection dispatcher, detector

    A shallow embedding of [application/main.go] (the ZMQ ingest loop and the
    TCP connection dispatcher) and of [application/detector/main.go] (the
    packet-capture detector), with the properties of the station
    specification stated over it.

    Bytes are integers in [0, 256); byte slices are lists.  Go's panics are
    an explicit outcome.  Calls into packages that are not part of these two
    files (zmq, protobuf, gopacket, syscall, the station library [dd]) are
    section variables, so every theorem holds for all their behaviours. *)

From stdpp Require Import gmap strings list fin_maps numbers.

(** ** Wire-level helpers: [bytes.Reader] and [binary.BigEndian] *)

Module Wire.

Abbreviation byte := Z.

(** Errors a decode can meet. [io_EOF] is what [bytes.Reader.Read] returns
    at the end of its slice; [zmq_error] is whatever [RecvBytes] failed with;
    [short_message n] is [fmt.Errorf("short message of size %v\n", n)]. *)
Inductive error : Type :=
| io_EOF
| zmq_error (code : Z)
| short_message (size : nat).

(** [bytes.Reader]: the slice [s] and the read index [i].  [reads] is ghost
    state: the (offset, count) of every copy made out of [s], in order. *)
Record Reader : Type := mkReader {
  s : list byte;
  i : nat;
  reads : list (nat * nat)
}.

Definition NewReader (b : list byte) : Reader :=
  {| s := b; i := 0; reads := [] |}.

(** Computations that advance a reader. *)
Definition M (A : Type) : Type := Reader → A * Reader.

#[global] Instance M_ret : MRet M := λ A a r, (a, r).
#[global] Instance M_bind : MBind M :=
  λ A B f m r, let '(a, r') := m r in f a r'.

(** [func (r *Reader) Read(b []byte) (n int, err error)]:
    at the end of the slice it returns [0, io.EOF]; otherwise
    [n = copy(b, r.s[r.i:])], which overwrites the first [n] bytes of [b]
    and leaves the rest of [b] as it was.  The result carries [b] as the
    call leaves it. *)
Definition Read (b : list byte) : M (list byte * nat * option error) :=
  λ r,
    if decide (length (s r) ≤ i r) then ((b, 0, Some io_EOF), r)
    else
      let n := length b `min` (length (s r) - i r) in
      ((take n (drop (i r) (s r)) ++ drop n b, n, None),
       {| s := s r; i := i r + n; reads := reads r ++ [(i r, n)] |}).

(** [binary.BigEndian.Uint16(b)] is [uint16(b[1]) | uint16(b[0])<<8]. *)
Definition BigEndian_Uint16 (b : list byte) : Z :=
  Z.lor (nth 1 b 0%Z) (Z.shiftl (nth 0 b 0%Z) 8).

(** Every copy recorded in [reads] lies inside the slice. *)
Definition in_bounds (len : nat) (accesses : list (nat * nat)) : Prop :=
  Forall (λ a, a.1 + a.2 ≤ len) accesses.

Lemma Read_length b r : length (Read b r).1.1.1 = length b.
Proof.
  unfold Read. case_decide; simpl; [done|].
  rewrite length_app, length_take, !length_drop. lia.
Qed.

Lemma Read_s b r : s (Read b r).2 = s r.
Proof. unfold Read. by case_decide. Qed.

Lemma Read_index b r : i r ≤ i (Read b r).2.
Proof. unfold Read. case_decide; simpl; lia. Qed.

Lemma Read_in_bounds b r :
  in_bounds (length (s r)) (reads r) →
  in_bounds (length (s r)) (reads (Read b r).2) ∧ (i r ≤ length (s r) → i (Read b r).2 ≤ length (s r)).
Proof.
  intros Hb. unfold Read. case_decide; simpl; [done|].
  split; [|lia].
  apply Forall_app. split; [done|].
  apply Forall_singleton. simpl. lia.
Qed.

End Wire.

(** ** [application/main.go]: the ingest loop and the connection dispatcher *)

Module Station.
Import Wire.

(** Lines written to the station's logger, one constructor per format
    string of [main.go]. *)
Inductive LogLine (Reg : Type) : Type :=
| log_zmq_read_error (e : error)     (* "error reading from ZMQ socket: %v\n" *)
| log_short_message (size : nat)     (* "short message of size %v\n" *)
| log_new_registration (reg : Reg).  (* "new registration: {dark decoy address=..." *)
Arguments log_zmq_read_error {Reg} e.
Arguments log_short_message {Reg} size.
Arguments log_new_registration {Reg} reg.

(** What one call of [recieve_zmq_message] hands back and leaves behind:
    the two declared results, the lines it logged, and the copies its
    reader made out of the message. *)
Record Received (Reg : Type) : Type := mkReceived {
  newReg : option Reg;
  err : option error;
  logged : list (LogLine Reg);
  accesses : list (nat * nat)
}.
Arguments mkReceived {Reg}.
Arguments newReg {Reg}.
Arguments err {Reg}.
Arguments logged {Reg}.
Arguments accesses {Reg}.

(** The locals of [recieve_zmq_message] once its four reads are done. *)
Record Fields : Type := mkFields {
  sharedSecret : list byte;
  fixedSizePayload : list byte;
  flags : list byte;
  vspSize : Z;
  clientToStationBytes : list byte
}.

(** Lines 98-100 and 112-122: three fixed-size arrays, zero-initialised, and
    the reads into them.  The third read targets [sharedSecret] again;
    [flags] is declared and never written. *)
Definition read_fields : M Fields :=
  let sharedSecret := replicate 32 0%Z in
  let fixedSizePayload := replicate 6 0%Z in
  let flags := replicate 1 0%Z in
  '(sharedSecret, _, _) ← Read sharedSecret;
  '(fixedSizePayload, _, _) ← Read fixedSizePayload;
  '(sharedSecret, _, _) ← Read sharedSecret;
  let vspSize := BigEndian_Uint16 (take 2 fixedSizePayload) in
  let clientToStationBytes := replicate (Z.to_nat vspSize) 0%Z in
  '(clientToStationBytes, _, _) ← Read clientToStationBytes;
  mret {| sharedSecret := sharedSecret;
          fixedSizePayload := fixedSizePayload;
          flags := flags;
          vspSize := vspSize;
          clientToStationBytes := clientToStationBytes |}.

Section Ingest.

(** Types and calls of the protobuf package and of the station library. *)
Variables ClientToStation ConjureKeys DecoyRegistration RegistrationManager : Type.
(** [pb.ClientToStation{}] *)
Variable ClientToStation_zero : ClientToStation.
(** [proto.unmarshal(bytes, record)]: the record as the call leaves it. *)
Variable proto_unmarshal : list byte → ClientToStation → ClientToStation.
(** [dd.generateKeys(sharedSecret)]: keys and an error (a message, if any). *)
Variable generateKeys : list byte → ConjureKeys * option string.
(** [regManager.NewRegistration(c2s, keys, flags)]: a pointer, possibly nil. *)
Variable NewRegistration :
  RegistrationManager → ClientToStation → ConjureKeys → list byte → option DecoyRegistration.
(** [newReg.PhantomIsLive()] *)
Variable PhantomIsLive : RegistrationManager → DecoyRegistration → bool.
(** [regManager.AddRegistration(newReg)]: the manager afterwards. *)
Variable AddRegistration : RegistrationManager → DecoyRegistration → RegistrationManager.

(** [recieve_zmq_message], lines 93-132.  [recv] is the result of
    [sub.RecvBytes(0)].  The statements after the [return] of line 132 are
    unreachable and are not part of the function's behaviour. *)
Definition recieve_zmq_message (recv : list byte + error)
    (regManager : RegistrationManager) : Received DecoyRegistration :=
  match recv with
  | inr e =>
      {| newReg := None; err := Some e;
         logged := [log_zmq_read_error e]; accesses := [] |}
  | inl msg =>
      if decide (length msg < 32 + 6 + 1 + 16) then
        {| newReg := None; err := Some (short_message (length msg));
           logged := [log_short_message (length msg)]; accesses := [] |}
      else
        let '(f, msgReader) := read_fields (NewReader msg) in
        let clientToStation := proto_unmarshal (clientToStationBytes f) ClientToStation_zero in
        let conjureKeys := (generateKeys (sharedSecret f)).1 in
        let newReg := NewRegistration regManager clientToStation conjureKeys (flags f) in
        {| newReg := newReg; err := None; logged := []; accesses := reads msgReader |}
  end.

(** One turn of the [for] loop of [get_zmq_updates], lines 80-89, on the
    manager and the log so far. *)
Definition ingest (st : RegistrationManager * list (LogLine DecoyRegistration))
    (recv : list byte + error) : RegistrationManager * list (LogLine DecoyRegistration) :=
  let '(regManager, out) := st in
  let r := recieve_zmq_message recv regManager in
  let out := out ++ logged r in
  match err r, newReg r with
  | None, Some newReg =>
      if negb (PhantomIsLive regManager newReg) then
        (AddRegistration regManager newReg, out ++ [log_new_registration newReg])
      else (regManager, out)
  | _, _ => (regManager, out)
  end.

(** [get_zmq_updates] over the messages the socket delivers, in order. *)
Definition get_zmq_updates (regManager : RegistrationManager)
    (messages : list (list byte + error)) :
    RegistrationManager * list (LogLine DecoyRegistration) :=
  foldl ingest (regManager, []) messages.

(** *** Inputs used below *)

(** A 55-byte message laid out as the specification says: a secret of 32
    ones, a fixed block declaring a 16-byte payload, the flags byte 7, and
    16 payload bytes. *)
Definition msg_layout : list byte :=
  replicate 32 1%Z ++ [0; 16; 0; 0; 0; 0]%Z ++ [7%Z] ++ replicate 16 2%Z.

(** A 79-byte message whose fixed block declares a 100-byte payload, with
    only 40 bytes after the flags byte. *)
Definition msg_overrun : list byte :=
  replicate 32 1%Z ++ [0; 100; 0; 0; 0; 0]%Z ++ [7%Z] ++ replicate 40 2%Z.

(** *** The reader stays inside the message *)

Lemma Read_keeps b r :
  in_bounds (length (s r)) (reads r) →
  s (Read b r).2 = s r ∧ in_bounds (length (s r)) (reads (Read b r).2).
Proof.
  intros Hb. split; [apply Read_s|]. by apply Read_in_bounds.
Qed.

Lemma read_fields_in_bounds r :
  in_bounds (length (s r)) (reads r) →
  in_bounds (length (s r)) (reads (read_fields r).2).
Proof.
  intros H0. unfold read_fields, mbind, M_bind, mret, M_ret.
  destruct (Read (replicate 32 0%Z) r) as [[[b1 n1] e1] r1] eqn:E1.
  destruct (Read_keeps (replicate 32 0%Z) r H0) as [S1 H1].
  rewrite E1 in S1, H1; simpl in S1, H1. rewrite <- S1 in H1.
  destruct (Read (replicate 6 0%Z) r1) as [[[b2 n2] e2] r2] eqn:E2.
  destruct (Read_keeps (replicate 6 0%Z) r1 H1) as [S2 H2].
  rewrite E2 in S2, H2; simpl in S2, H2. rewrite <- S2 in H2.
  destruct (Read b1 r2) as [[[b3 n3] e3] r3] eqn:E3.
  destruct (Read_keeps b1 r2 H2) as [S3 H3].
  rewrite E3 in S3, H3; simpl in S3, H3. rewrite <- S3 in H3.
  match goal with |- context [Read ?b r3] =>
    destruct (Read b r3) as [[[b4 n4] e4] r4] eqn:E4;
    destruct (Read_keeps b r3 H3) as [S4 H4] end.
  rewrite E4 in S4, H4; simpl in S4, H4. simpl.
  rewrite <- S1, <- S2, <- S3. exact H4.
Qed.

(** Whatever the message, every copy [recieve_zmq_message] makes out of it
    lies inside it. *)
Lemma recieve_in_bounds msg regManager :
  in_bounds (length msg) (accesses (recieve_zmq_message (inl msg) regManager)).
Proof.
  unfold recieve_zmq_message. case_decide; simpl; [by apply Forall_nil|].
  destruct (read_fields (NewReader msg)) as [f r] eqn:E. simpl.
  pose proof (read_fields_in_bounds (NewReader msg)) as Hrf.
  rewrite E in Hrf. apply Hrf. by apply Forall_nil.
Qed.

(** The only error of the decode path of a received message is the initial
    length check. *)
Lemma recieve_err msg regManager :
  err (recieve_zmq_message (inl msg) regManager) =
  if decide (length msg < 55) then Some (short_message (length msg)) else None.
Proof.
  unfold recieve_zmq_message.
  change (32 + 6 + 1 + 16) with 55.
  case_decide; [done|].
  by destruct (read_fields (NewReader msg)).
Qed.

(** On every message that passes the length check, the flags handed on
    are the zero byte the array was created with, and the first 17 bytes of
    the secret handed to key derivation are bytes 38 to 54 of the message,
    not its first bytes. *)
Lemma Read_copy b r :
  i r < length (s r) →
  Read b r =
    ((take (length b `min` (length (s r) - i r)) (drop (i r) (s r))
        ++ drop (length b `min` (length (s r) - i r)) b,
      length b `min` (length (s r) - i r), None),
     {| s := s r; i := i r + length b `min` (length (s r) - i r);
        reads := reads r ++ [(i r, length b `min` (length (s r) - i r))] |}).
Proof. intros Hlt. unfold Read. rewrite decide_False by lia. done. Qed.

Lemma read_fields_overwrites msg :
  55 ≤ length msg →
  flags (read_fields (NewReader msg)).1 = [0%Z]
  ∧ take 17 (sharedSecret (read_fields (NewReader msg)).1) = take 17 (drop 38 msg).
Proof.
  intros Hlen.
  destruct (read_fields (NewReader msg)) as [f rf] eqn:E.
  unfold read_fields, mbind, M_bind, mret, M_ret, NewReader in E.
  rewrite Read_copy in E by (cbn [s i]; lia).
  cbn [s i reads] in E.
  rewrite length_replicate, (Nat.min_l 32) in E by lia.
  rewrite Read_copy in E by (cbn [s i]; lia).
  cbn [s i reads] in E.
  rewrite length_replicate, (Nat.min_l 6) in E by lia.
  rewrite Read_copy in E by (cbn [s i]; lia).
  cbn [s i reads] in E.
  match type of E with context [Read ?b ?r] =>
    destruct (Read b r) as [[[b4 n4] e4] r4] end.
  injection E as <- <-. cbn [flags sharedSecret fst].
  split; [done|].
  rewrite app_nil_r, length_take, length_drop.
  rewrite take_app_le by (rewrite length_take, length_drop; lia).
  rewrite take_take. f_equal. lia.
Qed.

(** A turn of the ingest loop changes the manager only through
    [AddRegistration], and only behind a failed liveness check. *)
Lemma ingest_guard regManager out recv :
  (ingest (regManager, out) recv).1 = regManager
  ∨ ∃ reg, newReg (recieve_zmq_message recv regManager) = Some reg
           ∧ err (recieve_zmq_message recv regManager) = None
           ∧ PhantomIsLive regManager reg = false
           ∧ (ingest (regManager, out) recv).1 = AddRegistration regManager reg.
Proof.
  unfold ingest.
  destruct (err (recieve_zmq_message recv regManager)) eqn:Ee; [by left|].
  destruct (newReg (recieve_zmq_message recv regManager)) as [reg|] eqn:Er; [|by left].
  destruct (PhantomIsLive regManager reg) eqn:El; simpl; [by left|].
  right. by exists reg.
Qed.

(** Messages that fail to arrive or are too short never stop the loop and
    never change the manager, however many of them come. *)
Lemma get_zmq_updates_rejects regManager messages :
  Forall (λ recv, match recv with
                  | inl msg => length msg < 32 + 6 + 1 + 16
                  | inr _ => True
                  end) messages →
  (get_zmq_updates regManager messages).1 = regManager.
Proof.
  unfold get_zmq_updates. generalize (@nil (LogLine DecoyRegistration)).
  intros out Hall. revert out.
  induction Hall as [|recv messages Hrecv _ IH]; intros out; [done|].
  cbn [foldl].
  assert (∃ out', ingest (regManager, out) recv = (regManager, out')) as [out' ->];
    [|apply IH].
  destruct recv as [msg|e]; unfold ingest, recieve_zmq_message.
  - rewrite decide_True by exact Hrecv. by eexists.
  - by eexists.
Qed.

(** *** Claims on the ingest decoder *)

(** C1 (evaluation at the failing input). On [msg_layout], which passes the
    length check, the third read overwrites the first 17 bytes of the secret
    with the flags byte and the payload: key derivation is applied to
    [7 :: sixteen 2s ++ fifteen 1s], not to the first 32 bytes of the
    message; the flags handed to [NewRegistration] are [0], not the byte 7
    that follows the 6-byte block; and the payload handed to the protobuf
    decoder is 16 zero bytes, because the reader is already at its end. *)
Theorem C1_secret_overwritten_flags_unread regManager :
  recieve_zmq_message (inl msg_layout) regManager =
    {| newReg :=
         NewRegistration regManager
           (proto_unmarshal (replicate 16 0%Z) ClientToStation_zero)
           (generateKeys (7%Z :: replicate 16 2%Z ++ replicate 15 1%Z)).1
           [0%Z];
       err := None; logged := []; accesses := [(0, 32); (32, 6); (38, 17)] |}
  ∧ take 32 msg_layout = replicate 32 1%Z
  ∧ msg_layout !! (32 + 6) = Some 7%Z.
Proof. by vm_compute. Qed.

(** C3 (evaluation at the failing input). On [msg_overrun] the declared
    payload length, 100, exceeds what is left of the buffer, and the decode
    reports no error: it builds a registration from the 9 bytes its reader
    still had, padded with 91 zero bytes.  Its reads stay inside the
    message. *)
Theorem C3_overrun_not_rejected regManager :
  let r := recieve_zmq_message (inl msg_overrun) regManager in
  BigEndian_Uint16 (take 2 (drop 32 msg_overrun)) = 100%Z
  ∧ length (drop (32 + 6 + 1) msg_overrun) = 40
  ∧ err r = None
  ∧ newReg r =
      NewRegistration regManager
        (proto_unmarshal (replicate 9 2%Z ++ replicate 91 0%Z) ClientToStation_zero)
        (generateKeys (7%Z :: replicate 31 2%Z)).1
        [0%Z]
  ∧ accesses r = [(0, 32); (32, 6); (38, 32); (70, 9)]
  ∧ in_bounds (length msg_overrun) (accesses r).
Proof.
  repeat split; try by vm_compute.
  apply recieve_in_bounds.
Qed.

(** C6 (as amended). The initial length check rejects a message with the
    short-message error exactly when it is shorter than 32 + 6 + 1 + 16 = 55
    bytes; every message of at least 55 bytes gets past it, and then no
    error is returned at all. *)
Theorem C6_length_check_55 msg regManager :
  (err (recieve_zmq_message (inl msg) regManager) = Some (short_message (length msg))
     ↔ length msg < 55)
  ∧ (err (recieve_zmq_message (inl msg) regManager) = None ↔ 55 ≤ length msg).
Proof.
  rewrite recieve_err. case_decide; split; split; intros; try done; lia.
Qed.

(** C7. A message shorter than the fixed header the decoder requires (55
    bytes; a 39-byte message is one) is answered with the short-message
    error before any reader exists, so nothing is read; no registration is
    built; and the turn of the ingest loop leaves the manager as it was. *)
Theorem C7_short_message_rejected msg regManager out :
  length msg < 32 + 6 + 1 + 16 →
  recieve_zmq_message (inl msg) regManager =
    {| newReg := None; err := Some (short_message (length msg));
       logged := [log_short_message (length msg)]; accesses := [] |}
  ∧ in_bounds (length msg) (accesses (recieve_zmq_message (inl msg) regManager))
  ∧ (ingest (regManager, out) (inl msg)).1 = regManager.
Proof.
  intros Hshort.
  assert (recieve_zmq_message (inl msg) regManager =
    {| newReg := None; err := Some (short_message (length msg));
       logged := [log_short_message (length msg)]; accesses := [] |}) as E.
  { unfold recieve_zmq_message. by rewrite decide_True. }
  split; [exact E|]. split; [apply recieve_in_bounds|].
  unfold ingest. by rewrite E.
Qed.

(** *** The decoder on every message: what it reads and what it hands on *)

(** The state after the three fixed-size reads, with the payload read still
    to run. *)
Lemma read_fields_eq msg :
  55 ≤ length msg →
  read_fields (NewReader msg) =
    let n3 := 32 `min` (length msg - 38) in
    let secret := take n3 (drop 38 msg) ++ drop n3 (take 32 msg) in
    let fixed := take 6 (drop 32 msg) in
    let v := BigEndian_Uint16 (take 2 fixed) in
    let r4 := Read (replicate (Z.to_nat v) 0%Z)
                {| s := msg; i := 38 + n3; reads := [(0, 32); (32, 6); (38, n3)] |} in
    ({| sharedSecret := secret; fixedSizePayload := fixed; flags := [0%Z];
        vspSize := v; clientToStationBytes := r4.1.1.1 |}, r4.2).
Proof.
  intros Hlen.
  unfold read_fields, mbind, M_bind, mret, M_ret, NewReader.
  rewrite Read_copy by (cbn [s i]; lia).
  cbn [s i reads].
  rewrite length_replicate, (Nat.min_l 32) by lia.
  rewrite Read_copy by (cbn [s i]; lia).
  cbn [s i reads].
  rewrite length_replicate, (Nat.min_l 6) by lia.
  rewrite Read_copy by (cbn [s i]; lia).
  cbn [s i reads].
  change (drop 6 (replicate 6 0%Z)) with (@nil Z).
  change (drop 32 (replicate 32 0%Z)) with (@nil Z).
  rewrite !app_nil_r, drop_0.
  change (0 + 32 + 6) with 38. change (0 + 32) with 32.
  rewrite length_take, (Nat.min_l 32 (length msg)) by lia.
  cbn [app].
  match goal with |- context [Read ?b ?r] => destruct (Read b r) as [[[b4 n4] e4] r4] end.
  done.
Qed.

(** The payload read: nothing at the end of the message, otherwise what is
    left of it, up to the declared length, over the zeros of the array. *)
Lemma payload_read (v : nat) msg n3 rs :
  Read (replicate v 0%Z) {| s := msg; i := 38 + n3; reads := rs |} =
  if decide (length msg ≤ 38 + n3) then
    ((replicate v 0%Z, 0, Some io_EOF), {| s := msg; i := 38 + n3; reads := rs |})
  else
    let n := v `min` (length msg - (38 + n3)) in
    ((take v (drop (38 + n3) msg) ++ replicate (v - n) 0%Z, n, None),
     {| s := msg; i := 38 + n3 + n; reads := rs ++ [(38 + n3, n)] |}).
Proof.
  unfold Read. cbn [s i reads]. case_decide; [done|].
  rewrite length_replicate, drop_replicate.
  cbn zeta. f_equal. f_equal. f_equal. f_equal.
  destruct (Nat.min_spec v (length msg - (38 + n3))) as [[Hlt ->]|[Hge ->]]; [done|].
  rewrite !take_ge by (rewrite length_drop; lia). done.
Qed.

(** On two bytes, [BigEndian_Uint16] is the usual base-256 value. *)
Lemma BigEndian_Uint16_bytes (b0 b1 : byte) (rest : list byte) :
  (0 ≤ b0 < 256)%Z → (0 ≤ b1 < 256)%Z →
  BigEndian_Uint16 (b0 :: b1 :: rest) = (256 * b0 + b1)%Z.
Proof.
  intros H0 H1. unfold BigEndian_Uint16. cbn [nth].
  rewrite Z.shiftl_mul_pow2 by lia.
  rewrite <- Z.add_nocarry_lor.
  - change (2 ^ 8)%Z with 256%Z. lia.
  - apply Z.bits_inj'. intros n Hn. rewrite Z.land_spec, Z.bits_0.
    destruct (decide (n < 8)%Z) as [Hlt|Hge].
    + rewrite Z.mul_pow2_bits_low by lia. apply andb_false_r.
    + rewrite <- (Z.mod_small b1 (2 ^ 8)) by (change (2 ^ 8)%Z with 256%Z; lia).
      rewrite Z.mod_pow2_bits_high by lia. done.
Qed.

(** X1. A message of at least 70 bytes is decoded from fixed offsets: key
    derivation gets bytes 38 to 69, the flags are the zero byte, and the
    protobuf decoder gets the bytes from offset 70 on, cut to the declared
    length or padded with zeros up to it. *)
Theorem decode_long_message msg regManager :
  70 ≤ length msg →
  let v := Z.to_nat (BigEndian_Uint16 (take 2 (drop 32 msg))) in
  let r := recieve_zmq_message (inl msg) regManager in
  err r = None
  ∧ newReg r =
      NewRegistration regManager
        (proto_unmarshal
           (take v (drop 70 msg) ++ replicate (v - (length msg - 70)) 0%Z)
           ClientToStation_zero)
        (generateKeys (take 32 (drop 38 msg))).1
        [0%Z].
Proof.
  intros Hlen v r. subst r.
  unfold recieve_zmq_message. rewrite decide_False by lia.
  rewrite read_fields_eq by lia. cbn zeta.
  rewrite take_take. change (2 `min` 6) with 2. fold v.
  rewrite (Nat.min_l 32) by lia. change (38 + 32) with 70.
  change (take 32 (drop 38 msg) ++ drop 32 (take 32 msg))
    with (take 32 (drop 38 msg) ++ drop 32 (take 32 msg)).
  rewrite (drop_ge (take 32 msg)) by (rewrite length_take; lia).
  rewrite app_nil_r.
  pose proof (payload_read v msg 32 [(0, 32); (32, 6); (38, 32)]) as Hp.
  change (38 + 32) with 70 in Hp. rewrite Hp. clear Hp.
  case_decide as Hend; cbn [fst snd err newReg sharedSecret flags clientToStationBytes].
  - split; [done|]. assert (length msg = 70) as Heq by lia.
    rewrite (drop_ge msg 70) by lia. rewrite take_nil, Heq, Nat.sub_diag, Nat.sub_0_r.
    done.
  - split; [done|]. do 3 f_equal.
    destruct (Nat.min_spec v (length msg - 70)) as [[Hlt ->]|[Hge ->]]; [|done].
    f_equal. lia.
Qed.

(** X2. A message of 55 to 70 bytes leaves no byte for the payload read:
    the protobuf decoder gets only zeros, as many as the message declares,
    and key derivation gets the bytes from offset 38 to the end of the
    message followed by the bytes of the message's first 32 that the third
    read did not reach. *)
Theorem decode_short_payload_all_zero msg regManager :
  55 ≤ length msg ≤ 70 →
  let v := Z.to_nat (BigEndian_Uint16 (take 2 (drop 32 msg))) in
  let r := recieve_zmq_message (inl msg) regManager in
  err r = None
  ∧ newReg r =
      NewRegistration regManager
        (proto_unmarshal (replicate v 0%Z) ClientToStation_zero)
        (generateKeys (drop 38 msg ++ drop (length msg - 38) (take 32 msg))).1
        [0%Z].
Proof.
  intros Hlen v r. subst r.
  unfold recieve_zmq_message. rewrite decide_False by lia.
  rewrite read_fields_eq by lia. cbn zeta.
  rewrite take_take. change (2 `min` 6) with 2. fold v.
  rewrite (Nat.min_r 32) by lia.
  rewrite (take_ge (drop 38 msg)) by (rewrite length_drop; lia).
  rewrite payload_read. rewrite decide_True by lia.
  by cbn [fst snd err newReg sharedSecret flags clientToStationBytes].
Qed.

(** X3. Whatever a message of at least 55 bytes holds, the secret is 32
    bytes long, the fixed block 6, the flags 1, and the payload buffer has
    exactly the declared length; for byte values that length is
    256 * msg[32] + msg[33], so it is below 65536. *)
Theorem decode_field_lengths msg :
  55 ≤ length msg →
  Forall (λ b, 0 ≤ b < 256)%Z msg →
  let f := (read_fields (NewReader msg)).1 in
  length (sharedSecret f) = 32
  ∧ length (fixedSizePayload f) = 6
  ∧ length (flags f) = 1
  ∧ length (clientToStationBytes f) = Z.to_nat (vspSize f)
  ∧ vspSize f = (256 * nth 32 msg 0 + nth 33 msg 0)%Z
  ∧ (0 ≤ vspSize f < 65536)%Z.
Proof.
  intros Hlen Hbytes f. subst f.
  rewrite read_fields_eq by lia. cbn zeta.
  cbn [fst sharedSecret fixedSizePayload flags vspSize clientToStationBytes].
  assert (∃ b0 b1 rest, drop 32 msg = b0 :: b1 :: rest
            ∧ (0 ≤ b0 < 256)%Z ∧ (0 ≤ b1 < 256)%Z
            ∧ nth 32 msg 0%Z = b0 ∧ nth 33 msg 0%Z = b1) as (b0 & b1 & rest & Hd & H0 & H1 & Hn0 & Hn1).
  { pose proof (Forall_drop _ 32 _ Hbytes) as Hfd.
    destruct (drop 32 msg) as [|b0 [|b1 rest]] eqn:Ed;
      try (apply (f_equal length) in Ed; rewrite length_drop in Ed; simpl in Ed; lia).
    exists b0, b1, rest. split; [done|].
    inversion Hfd as [|? ? Hb0 Hfd']; subst. inversion Hfd' as [|? ? Hb1 _]; subst.
    split; [done|]. split; [done|].
    rewrite !nth_lookup.
    pose proof (lookup_drop msg 32 0) as L0. pose proof (lookup_drop msg 32 1) as L1.
    rewrite Ed in L0, L1. cbn in L0, L1. by rewrite <- L0, <- L1. }
  rewrite Hd.
  change (take 2 (take 6 (b0 :: b1 :: rest))) with [b0; b1].
  rewrite (BigEndian_Uint16_bytes b0 b1 []) by done.
  rewrite Hn0, Hn1.
  split. { rewrite length_app, length_take, !length_drop, length_take. lia. }
  split. { rewrite length_take. cbn [length]. apply (f_equal length) in Hd.
           rewrite length_drop in Hd. cbn [length] in Hd. lia. }
  split; [done|].
  split. { rewrite Read_length, length_replicate. done. }
  split; [done|]. lia.
Qed.

(** X4. The decoder consumes the message from its first byte, without a
    gap, up to byte 70 plus the declared length, or to the end of the
    message when that comes first; what lies beyond is never looked at. *)
Theorem decode_consumes msg regManager :
  55 ≤ length msg →
  let v := Z.to_nat (BigEndian_Uint16 (take 2 (drop 32 msg))) in
  let a := accesses (recieve_zmq_message (inl msg) regManager) in
  sum_list (a.*2) = length msg `min` (70 + v)
  ∧ ∀ k off n, a !! k = Some (off, n) → off = sum_list ((take k a).*2).
Proof.
  intros Hlen v a. subst a.
  unfold recieve_zmq_message. rewrite decide_False by lia.
  rewrite read_fields_eq by lia. cbn zeta.
  rewrite take_take. change (2 `min` 6) with 2. fold v.
  rewrite payload_read.
  case_decide as Hend; cbn [fst snd accesses reads].
  - split.
    + cbn [fmap list_fmap sum_list sum_list_with snd id]. lia.
    + intros [|[|[|k]]] off n;
        cbn [lookup list_lookup take fmap list_fmap sum_list sum_list_with snd id];
        intros [=]; subst; lia.
  - assert (32 `min` (length msg - 38) = 32) as -> by lia.
    split.
    + cbn [app fmap list_fmap sum_list sum_list_with snd id]. lia.
    + intros [|[|[|[|k]]]] off n;
        cbn [app lookup list_lookup take fmap list_fmap sum_list sum_list_with snd id];
        intros [=]; subst; lia.
Qed.

(** The manager a turn of the loop leaves does not depend on the log. *)
Lemma ingest_manager regManager out out' recv :
  (ingest (regManager, out) recv).1 = (ingest (regManager, out') recv).1.
Proof.
  unfold ingest.
  destruct (err (recieve_zmq_message recv regManager)); [done|].
  destruct (newReg (recieve_zmq_message recv regManager)) as [reg|]; [|done].
  by destruct (PhantomIsLive regManager reg).
Qed.

(** A message that did not arrive, or is shorter than 55 bytes. *)
Definition rejected (recv : list byte + error) : bool :=
  match recv with
  | inl msg => bool_decide (length msg < 32 + 6 + 1 + 16)
  | inr _ => true
  end.

Lemma ingest_rejected regManager out recv :
  rejected recv = true → (ingest (regManager, out) recv).1 = regManager.
Proof.
  unfold rejected, ingest, recieve_zmq_message. destruct recv as [msg|e]; [|done].
  intros Hshort%bool_decide_eq_true. by rewrite decide_True.
Qed.

Lemma foldl_ingest_manager messages regManager out out' :
  (foldl ingest (regManager, out) messages).1 = (foldl ingest (regManager, out') messages).1.
Proof.
  revert regManager out out'.
  induction messages as [|recv messages IH]; intros regManager out out'; [done|].
  cbn [foldl].
  destruct (ingest (regManager, out) recv) as [m1 o1] eqn:E1.
  destruct (ingest (regManager, out') recv) as [m2 o2] eqn:E2.
  pose proof (ingest_manager regManager out out' recv) as Hm.
  rewrite E1, E2 in Hm. simpl in Hm. subst m2. apply IH.
Qed.

(** X5. Failed receives and short messages are skipped without a trace on
    the manager, wherever they come in the stream: the manager after any
    sequence of messages is the one the remaining messages alone lead to. *)
Theorem get_zmq_updates_skips_rejected regManager messages :
  (get_zmq_updates regManager messages).1
  = (get_zmq_updates regManager (filter (λ recv, rejected recv = false) messages)).1.
Proof.
  unfold get_zmq_updates. generalize (@nil (LogLine DecoyRegistration)) at 1.
  generalize (@nil (LogLine DecoyRegistration)).
  revert regManager.
  induction messages as [|recv messages IH]; intros regManager out out'; [done|].
  cbn [foldl]. rewrite filter_cons.
  destruct (rejected recv) eqn:Hrej.
  - rewrite decide_False by done.
    destruct (ingest (regManager, out') recv) as [m1 o1] eqn:E1.
    pose proof (ingest_rejected regManager out' recv Hrej) as Hm.
    rewrite E1 in Hm. simpl in Hm. subst m1. apply IH.
  - rewrite decide_True by done. cbn [foldl].
    destruct (ingest (regManager, out') recv) as [m1 o1] eqn:E1.
    destruct (ingest (regManager, out) recv) as [m2 o2] eqn:E2.
    pose proof (ingest_manager regManager out' out recv) as Hm.
    rewrite E1, E2 in Hm. simpl in Hm. subst m2. apply IH.
Qed.

End Ingest.

(** C6 (counterexample). A 39-byte message is rejected by the initial
    length check, so the check is not "shorter than 39". *)
Lemma C6_39_bytes_rejected :
  ¬ (∀ msg : list byte,
       err (recieve_zmq_message unit unit unit unit tt (λ _ c, c) (λ _, (tt, None))
              (λ _ _ _ _, Some tt) (inl msg) tt) = Some (short_message (length msg))
       ↔ length msg < 32 + 6 + 1).
Proof.
  intros H. specialize (H (replicate 39 0%Z)).
  destruct H as [H _]. vm_compute in H. specialize (H eq_refl). lia.
Qed.

(** C7 (witness): a 39-byte message. *)
Lemma C7_short_message_rejected_witness :
  length (replicate 39 0%Z) < 32 + 6 + 1 + 16
  ∧ recieve_zmq_message unit unit unit unit tt (λ _ c, c) (λ _, (tt, None))
      (λ _ _ _ _, Some tt) (inl (replicate 39 0%Z)) tt =
    {| newReg := None; err := Some (short_message 39);
       logged := [log_short_message 39]; accesses := [] |}
  ∧ (ingest unit unit unit unit tt (λ _ c, c) (λ _, (tt, None))
       (λ _ _ _ _, Some tt) (λ _ _, false) (λ _ _, tt) (tt, []) (inl (replicate 39 0%Z))).1 = tt.
Proof.
  assert (length (replicate 39 0%Z) < 32 + 6 + 1 + 16) as Hlen by (vm_compute; lia).
  split; [exact Hlen|].
  pose proof (C7_short_message_rejected unit unit unit unit tt (λ _ c, c)
    (λ _, (tt, None)) (λ _ _ _ _, Some tt) (λ _ _, false) (λ _ _, tt)
    (replicate 39 0%Z) tt [] Hlen) as [E [_ T]].
  split; [exact E | exact T].
Defined.

(** The decoder with collaborators that show what they are handed: the
    protobuf record is the payload itself, the keys are the secret itself,
    and a registration is the triple (record, keys, flags). *)
Definition observe (msg : list byte) : Received (list byte * list byte * list byte) :=
  recieve_zmq_message (list byte) (list byte) (list byte * list byte * list byte) unit
    [] (λ b _, b) (λ secret, (secret, None)) (λ _ c k f, Some (c, k, f)) (inl msg) tt.

(** X1 (witness): [msg_overrun], 79 bytes declaring 100. *)
Lemma decode_long_message_witness :
  err (observe msg_overrun) = None
  ∧ newReg (observe msg_overrun)
    = Some (replicate 9 2%Z ++ replicate 91 0%Z, 7%Z :: replicate 31 2%Z, [0%Z]).
Proof.
  assert (70 ≤ length msg_overrun) as Hlen by (vm_compute; lia).
  exact (decode_long_message (list byte) (list byte) (list byte * list byte * list byte)
           unit [] (λ b _, b) (λ secret, (secret, None)) (λ _ c k f, Some (c, k, f))
           msg_overrun tt Hlen).
Defined.

(** X2 (witness): [msg_layout], 55 bytes declaring 16. *)
Lemma decode_short_payload_all_zero_witness :
  err (observe msg_layout) = None
  ∧ newReg (observe msg_layout)
    = Some (replicate 16 0%Z, 7%Z :: replicate 16 2%Z ++ replicate 15 1%Z, [0%Z]).
Proof.
  assert (55 ≤ length msg_layout ≤ 70) as Hlen by (vm_compute; lia).
  exact (decode_short_payload_all_zero (list byte) (list byte)
           (list byte * list byte * list byte) unit [] (λ b _, b)
           (λ secret, (secret, None)) (λ _ c k f, Some (c, k, f)) msg_layout tt Hlen).
Defined.

(** X3 (witness): [msg_layout]. *)
Lemma decode_field_lengths_witness :
  let f := (read_fields (NewReader msg_layout)).1 in
  length (sharedSecret f) = 32
  ∧ length (clientToStationBytes f) = 16
  ∧ vspSize f = 16%Z.
Proof.
  assert (55 ≤ length msg_layout) as Hlen by (vm_compute; lia).
  assert (Forall (λ b, 0 ≤ b < 256)%Z msg_layout) as Hbytes.
  { unfold msg_layout. repeat (apply Forall_app; split);
      try (apply Forall_replicate; lia); repeat constructor; lia. }
  destruct (decode_field_lengths msg_layout Hlen Hbytes) as (Hs & _ & _ & Hp & Hv & _).
  intros f. split; [exact Hs|]. split; [exact Hp|exact Hv].
Defined.

(** X4 (witness): [msg_overrun] is consumed to its end, 79 bytes. *)
Lemma decode_consumes_witness :
  sum_list ((accesses (observe msg_overrun)).*2) = 79.
Proof.
  assert (55 ≤ length msg_overrun) as Hlen by (vm_compute; lia).
  exact (proj1 (decode_consumes (list byte) (list byte) (list byte * list byte * list byte)
                  unit [] (λ b _, b) (λ secret, (secret, None)) (λ _ c k f, Some (c, k, f))
                  msg_overrun tt Hlen)).
Defined.

(** *** The connection dispatcher *)

(** [syscall.IPv6Mreq], [syscall.RawSockaddrInet6] and [syscall.IPv6MTUInfo];
    the 16-byte arrays are lists. *)
Record IPv6Mreq : Type := mkIPv6Mreq {
  Multiaddr : list byte;
  Interface : Z
}.

Record RawSockaddrInet6 : Type := mkRawSockaddrInet6 {
  Family : Z;
  Port : Z;
  Flowinfo : Z;
  Addr : list byte;
  Scope_id : Z
}.

Record IPv6MTUInfo : Type := mkIPv6MTUInfo {
  mtu_Addr : RawSockaddrInet6;
  Mtu : Z
}.

Definition IPPROTO_IP : Z := 0.
Definition IPPROTO_IPV6 : Z := 41.
Definition SO_ORIGINAL_DST : Z := 80.

(** [net.IPv4(a, b, c, d)]: the 16-byte form, behind the v4-in-v6 prefix. *)
Definition net_IPv4 (a b c d : byte) : list byte :=
  replicate 10 0%Z ++ [255; 255; a; b; c; d]%Z.

(** What a connection task does that others can see, in order. *)
Inductive DispatchEvent (Reg Conn Handler : Type) : Type :=
| log_no_file (e : string)          (* "failed to get file descriptor on clientConn: %v\n" *)
| log_no_original_dst (errno : Z)   (* "failed to getOriginalDst from fd:" *)
| log_not_found (ip : list byte)    (* "registration for %v not found" *)
| log_unknown_protocol              (* "failed to initialize proxy, unknown or unimplemented protocol." *)
| invoked (h : Handler) (reg : Reg) (conn : Conn) (ip : list byte)
| closed (conn : Conn).
Arguments log_no_file {Reg Conn Handler} e.
Arguments log_no_original_dst {Reg Conn Handler} errno.
Arguments log_not_found {Reg Conn Handler} ip.
Arguments log_unknown_protocol {Reg Conn Handler}.
Arguments invoked {Reg Conn Handler} h reg conn ip.
Arguments closed {Reg Conn Handler} conn.

Section Dispatch.

Variables DecoyRegistration RegistrationManager TCPConn File Handler : Type.
(** [clientConn.File()] and [fd.Fd()] *)
Variable TCPConn_File : TCPConn → File + string.
Variable File_Fd : File → Z.
(** The two socket-option reads, each a value or an errno. *)
Variable GetsockoptIPv6Mreq : Z → Z → Z → IPv6Mreq + Z.
Variable GetsockoptIPv6MTUInfo : Z → Z → Z → IPv6MTUInfo + Z.
(** [regManager.CheckRegistration(ip)]: a pointer, nil on a miss. *)
Variable CheckRegistration : RegistrationManager → list byte → option DecoyRegistration.
(** [dd.ProxyFactory(reg, proxyProtocol)]: a function value, possibly nil. *)
Variable ProxyFactory : DecoyRegistration → Z → option Handler.

(** [getOriginalDst], lines 18-29. *)
Definition getOriginalDst (fd : Z) : list byte + Z :=
  match GetsockoptIPv6Mreq fd IPPROTO_IP SO_ORIGINAL_DST with
  | inl sockOpt =>
      inl (net_IPv4 (nth 4 (Multiaddr sockOpt) 0%Z) (nth 5 (Multiaddr sockOpt) 0%Z)
                    (nth 6 (Multiaddr sockOpt) 0%Z) (nth 7 (Multiaddr sockOpt) 0%Z))
  | inr _ =>
      match GetsockoptIPv6MTUInfo fd IPPROTO_IPV6 SO_ORIGINAL_DST with
      | inl mtuinfo => inl (Addr (mtu_Addr mtuinfo))
      | inr errno => inr errno
      end
  end.

(** [handleNewConn], lines 31-61.  The deferred [clientConn.Close()] runs
    last on every path. *)
Definition handleNewConn (regManager : RegistrationManager) (clientConn : TCPConn) :
    list (DispatchEvent DecoyRegistration TCPConn Handler) :=
  (match TCPConn_File clientConn with
   | inr e => [log_no_file e]
   | inl fd =>
       match getOriginalDst (File_Fd fd) with
       | inr errno => [log_no_original_dst errno]
       | inl originalDstIP =>
           match CheckRegistration regManager originalDstIP with
           | None => [log_not_found originalDstIP]
           | Some reg =>
               match ProxyFactory reg 0 with
               | Some proxyHandler => [invoked proxyHandler reg clientConn originalDstIP]
               | None => [log_unknown_protocol]
               end
           end
       end
   end) ++ [closed clientConn].

Definition is_invoked (e : DispatchEvent DecoyRegistration TCPConn Handler) : bool :=
  match e with invoked _ _ _ _ => true | _ => false end.

(** Every connection task ends by closing its connection. *)
Lemma handleNewConn_closes regManager clientConn :
  list.last (handleNewConn regManager clientConn) = Some (closed clientConn).
Proof. unfold handleNewConn. apply last_snoc. Qed.

(** C5. For a connection whose original destination [ip] was recovered:
    on a lookup miss the task logs, invokes no handler and closes the
    connection; on a hit the handler [ProxyFactory reg 0] returns, chosen
    from the registration, is invoked with (registration, connection,
    original destination) and the connection is closed after it; and when
    [ProxyFactory] returns nil the task logs the unknown-protocol error,
    invokes nothing and closes the connection. *)
Theorem C5_dispatch regManager clientConn fd ip :
  TCPConn_File clientConn = inl fd →
  getOriginalDst (File_Fd fd) = inl ip →
  let trace := handleNewConn regManager clientConn in
  (CheckRegistration regManager ip = None →
     trace = [log_not_found ip; closed clientConn]
     ∧ filter is_invoked trace = [])
  ∧ (∀ reg h, CheckRegistration regManager ip = Some reg →
       ProxyFactory reg 0 = Some h →
       trace = [invoked h reg clientConn ip; closed clientConn])
  ∧ (∀ reg, CheckRegistration regManager ip = Some reg →
       ProxyFactory reg 0 = None →
       trace = [log_unknown_protocol; closed clientConn]
       ∧ filter is_invoked trace = [])
  ∧ list.last trace = Some (closed clientConn).
Proof.
  intros Hfile Hdst trace. subst trace. unfold handleNewConn.
  rewrite Hfile, Hdst. split; [|split; [|split]].
  - by intros ->.
  - by intros reg h -> ->.
  - by intros reg -> ->.
  - apply last_snoc.
Qed.

(** *** The rest of the dispatcher: every path of a connection task *)

(** X6. [getOriginalDst] fails exactly when both socket queries fail, and
    then with the errno of the IPv6 query.  When the IPv4 query succeeds its
    answer wins, whatever the IPv6 query would say: the result is the
    16-byte IPv4-in-IPv6 form of bytes 4 to 7 of the returned [Multiaddr].
    Otherwise the result is the address of the IPv6 answer, as it came. *)
Theorem getOriginalDst_cases fd :
  (∀ errno, getOriginalDst fd = inr errno
      ↔ (∃ e4, GetsockoptIPv6Mreq fd IPPROTO_IP SO_ORIGINAL_DST = inr e4)
        ∧ GetsockoptIPv6MTUInfo fd IPPROTO_IPV6 SO_ORIGINAL_DST = inr errno)
  ∧ (∀ sockOpt, GetsockoptIPv6Mreq fd IPPROTO_IP SO_ORIGINAL_DST = inl sockOpt →
       length (Multiaddr sockOpt) = 16 →
       ∃ ip, getOriginalDst fd = inl ip
             ∧ length ip = 16
             ∧ take 12 ip = replicate 10 0%Z ++ [255; 255]%Z
             ∧ drop 12 ip = take 4 (drop 4 (Multiaddr sockOpt)))
  ∧ (∀ e4 mtuinfo, GetsockoptIPv6Mreq fd IPPROTO_IP SO_ORIGINAL_DST = inr e4 →
       GetsockoptIPv6MTUInfo fd IPPROTO_IPV6 SO_ORIGINAL_DST = inl mtuinfo →
       getOriginalDst fd = inl (Addr (mtu_Addr mtuinfo))).
Proof.
  unfold getOriginalDst. split; [|split].
  - intros errno.
    destruct (GetsockoptIPv6Mreq fd IPPROTO_IP SO_ORIGINAL_DST) as [sockOpt|e4].
    + split; [done|]. by intros [[e4 ?] _].
    + destruct (GetsockoptIPv6MTUInfo fd IPPROTO_IPV6 SO_ORIGINAL_DST) as [info|e6].
      * split; [done|]. by intros [_ ?].
      * split.
        -- intros [= ->]. split; [by exists e4|done].
        -- by intros [_ [= ->]].
  - intros sockOpt -> Hlen. eexists. split; [done|].
    destruct (Multiaddr sockOpt) as [|m0 [|m1 [|m2 [|m3 [|m4 [|m5 [|m6 [|m7 rest]]]]]]]];
      try (simpl in Hlen; lia).
    done.
  - by intros e4 mtuinfo -> ->.
Qed.

(** X7. Every connection task leaves exactly two events, the second being
    the close of its own connection; a handler runs at most once, and it
    runs with (h, reg, ip) exactly when the file descriptor was obtained,
    the original destination was recovered as [ip], the lookup of [ip] found
    [reg], and [ProxyFactory reg 0] returned [h].  A failure at any of the
    four steps ends in the log line of that step, carrying the error or the
    address, followed by the close. *)
Theorem handleNewConn_invokes_iff regManager clientConn :
  let trace := handleNewConn regManager clientConn in
  length trace = 2
  ∧ trace !! 1 = Some (closed clientConn)
  ∧ (∀ h reg c ip,
       invoked h reg c ip ∈ trace
       ↔ c = clientConn
         ∧ ∃ fd, TCPConn_File clientConn = inl fd
                 ∧ getOriginalDst (File_Fd fd) = inl ip
                 ∧ CheckRegistration regManager ip = Some reg
                 ∧ ProxyFactory reg 0 = Some h)
  ∧ (∀ e, TCPConn_File clientConn = inr e →
       trace = [log_no_file e; closed clientConn])
  ∧ (∀ fd errno, TCPConn_File clientConn = inl fd →
       getOriginalDst (File_Fd fd) = inr errno →
       trace = [log_no_original_dst errno; closed clientConn])
  ∧ (∀ fd ip, TCPConn_File clientConn = inl fd →
       getOriginalDst (File_Fd fd) = inl ip →
       CheckRegistration regManager ip = None →
       trace = [log_not_found ip; closed clientConn])
  ∧ (∀ fd ip reg, TCPConn_File clientConn = inl fd →
       getOriginalDst (File_Fd fd) = inl ip →
       CheckRegistration regManager ip = Some reg →
       ProxyFactory reg 0 = None →
       trace = [log_unknown_protocol; closed clientConn])
  ∧ (∀ fd ip reg h, TCPConn_File clientConn = inl fd →
       getOriginalDst (File_Fd fd) = inl ip →
       CheckRegistration regManager ip = Some reg →
       ProxyFactory reg 0 = Some h →
       trace = [invoked h reg clientConn ip; closed clientConn]).
Proof.
  intros trace.
  assert (length trace = 2
    ∧ trace !! 1 = Some (closed clientConn)
    ∧ ∀ h reg c ip,
        invoked h reg c ip ∈ trace
        ↔ c = clientConn
          ∧ ∃ fd, TCPConn_File clientConn = inl fd
                  ∧ getOriginalDst (File_Fd fd) = inl ip
                  ∧ CheckRegistration regManager ip = Some reg
                  ∧ ProxyFactory reg 0 = Some h) as (Hlen & Hclose & Hiff).
  { subst trace. unfold handleNewConn.
    destruct (TCPConn_File clientConn) as [fd|e] eqn:Efile.
    2:{ split; [done|]. split; [done|]. intros h reg c ip. split.
        - intros Hin. repeat (apply elem_of_cons in Hin as [Hin|Hin]; [done|]).
          by apply elem_of_nil in Hin.
        - by intros [_ (fd & ? & _)]. }
    destruct (getOriginalDst (File_Fd fd)) as [ip0|errno] eqn:Edst.
    2:{ split; [done|]. split; [done|]. intros h reg c ip. split.
        - intros Hin. repeat (apply elem_of_cons in Hin as [Hin|Hin]; [done|]).
          by apply elem_of_nil in Hin.
        - intros [_ (fd' & [= <-] & Hd & _)]. by rewrite Edst in Hd. }
    destruct (CheckRegistration regManager ip0) as [reg0|] eqn:Ereg.
    2:{ split; [done|]. split; [done|]. intros h reg c ip. split.
        - intros Hin. repeat (apply elem_of_cons in Hin as [Hin|Hin]; [done|]).
          by apply elem_of_nil in Hin.
        - intros [_ (fd' & [= <-] & Hd & Hr & _)].
          rewrite Edst in Hd. injection Hd as <-. by rewrite Ereg in Hr. }
    destruct (ProxyFactory reg0 0) as [h0|] eqn:Efac.
    2:{ split; [done|]. split; [done|]. intros h reg c ip. split.
        - intros Hin. repeat (apply elem_of_cons in Hin as [Hin|Hin]; [done|]).
          by apply elem_of_nil in Hin.
        - intros [_ (fd' & [= <-] & Hd & Hr & Hf)].
          rewrite Edst in Hd. injection Hd as <-. rewrite Ereg in Hr.
          injection Hr as <-. by rewrite Efac in Hf. }
    split; [done|]. split; [done|]. intros h reg c ip. split.
    - intros Hin. apply elem_of_cons in Hin as [[= -> -> -> ->]|Hin].
      + split; [done|]. by exists fd.
      + apply elem_of_cons in Hin as [Hin|Hin]; [done|]. by apply elem_of_nil in Hin.
    - intros [-> (fd' & [= <-] & Hd & Hr & Hf)].
      rewrite Edst in Hd. injection Hd as <-. rewrite Ereg in Hr. injection Hr as <-.
      rewrite Efac in Hf. injection Hf as <-. apply elem_of_cons. by left. }
  split; [exact Hlen|]. split; [exact Hclose|]. split; [exact Hiff|].
  subst trace. unfold handleNewConn.
  split; [by intros e ->|].
  split; [by intros fd errno -> ->|].
  split; [by intros fd ip -> -> ->|].
  split; [by intros fd ip reg -> -> -> ->|].
  by intros fd ip reg h -> -> -> ->.
Qed.

(** X18. The registration table is asked about the original destination
    in its 16-byte form only, also for IPv4 connections: a handler is only
    ever invoked with a 16-byte destination, and with the registration the
    lookup of that very destination returned.  (The IPv6 query fills a
    16-byte array; that is the hypothesis.) *)
Theorem handler_gets_looked_up_destination regManager clientConn h reg c ip :
  (∀ fd level opt mtuinfo,
      GetsockoptIPv6MTUInfo fd level opt = inl mtuinfo →
      length (Addr (mtu_Addr mtuinfo)) = 16) →
  invoked h reg c ip ∈ handleNewConn regManager clientConn →
  length ip = 16 ∧ CheckRegistration regManager ip = Some reg.
Proof.
  intros H16 Hin. unfold handleNewConn in Hin.
  destruct (TCPConn_File clientConn) as [fd|e].
  2:{ repeat (apply elem_of_cons in Hin as [Hin|Hin]; [done|]). by apply elem_of_nil in Hin. }
  destruct (getOriginalDst (File_Fd fd)) as [ip0|errno] eqn:Edst.
  2:{ repeat (apply elem_of_cons in Hin as [Hin|Hin]; [done|]). by apply elem_of_nil in Hin. }
  destruct (CheckRegistration regManager ip0) as [reg0|] eqn:Ereg.
  2:{ repeat (apply elem_of_cons in Hin as [Hin|Hin]; [done|]). by apply elem_of_nil in Hin. }
  destruct (ProxyFactory reg0 0) as [h0|].
  2:{ repeat (apply elem_of_cons in Hin as [Hin|Hin]; [done|]). by apply elem_of_nil in Hin. }
  apply elem_of_cons in Hin as [[= -> -> -> ->]|Hin].
  2:{ apply elem_of_cons in Hin as [Hin|Hin]; [done|]. by apply elem_of_nil in Hin. }
  split; [|done].
  revert Edst. unfold getOriginalDst.
  destruct (GetsockoptIPv6Mreq (File_Fd fd) IPPROTO_IP SO_ORIGINAL_DST) as [sockOpt|e4].
  - by intros [= <-].
  - destruct (GetsockoptIPv6MTUInfo (File_Fd fd) IPPROTO_IPV6 SO_ORIGINAL_DST)
      as [mtuinfo|e6] eqn:E6; [|done].
    intros [= <-]. by apply (H16 _ _ _ _ E6).
Qed.

(** *** [main]: the listener and its accept loop *)

(** What [main] does that others can see, in order: its log lines, the
    goroutines it starts, and the deferred close of its listener. *)
Inductive MainEvent : Type :=
| go_get_zmq_updates
| log_listen_failed (e : string)   (* "failed to listen on %v: %v\n" *)
| log_startup                      (* "[STARTUP] Listening on %v\n" *)
| log_accept_failed (e : string)   (* "[ERROR] failed to AcceptTCP on %v: %v\n" *)
| log_connect                      (* "[CONNECT] new connection from address: %v\n" *)
| go_handleNewConn (newConn : TCPConn)
| listener_closed.

(** The [for] loop of [main], lines 196-204, over the results of
    [ln.AcceptTCP()] so far; at the end of the list the loop is waiting in
    the next accept. *)
Fixpoint accept_loop (accepts : list (TCPConn + string)) : list MainEvent :=
  match accepts with
  | [] => []
  | inr e :: _ => [log_accept_failed e; listener_closed]
  | inl newConn :: accepts' =>
      log_connect :: go_handleNewConn newConn :: accept_loop accepts'
  end.

(** [main], lines 182-205.  [listen] is the error of [net.ListenTCP], if
    any. *)
Definition main (listen : option string) (accepts : list (TCPConn + string)) :
    list MainEvent :=
  go_get_zmq_updates ::
  match listen with
  | Some e => [log_listen_failed e]
  | None => log_startup :: accept_loop accepts
  end.

(** The connections handed to a task, read off a trace of [main]. *)
Definition dispatched (trace : list MainEvent) : list TCPConn :=
  omap (λ ev, match ev with go_handleNewConn c => Some c | _ => None end) trace.

Lemma accept_loop_until_error conns e later :
  accept_loop ((inl <$> conns) ++ inr e :: later)
  = accept_loop ((inl <$> conns) ++ [inr e])
  ∧ dispatched (accept_loop ((inl <$> conns) ++ inr e :: later)) = conns.
Proof.
  induction conns as [|c conns [IH1 IH2]]; [done|].
  cbn [fmap list_fmap app accept_loop]. split.
  - by rewrite IH1.
  - unfold dispatched in *. cbn [omap list_omap]. by rewrite IH2.
Qed.

(** X8. The accept loop ends at the first failed accept: the connections
    accepted before it are each handed to a task, in order, the listener is
    closed, and whatever would have been accepted later is never handled.
    When the listener cannot be opened no connection is handled at all; the
    ingest goroutine is started either way. *)
Theorem main_stops_at_first_accept_error conns e later accepts :
  main None ((inl <$> conns) ++ inr e :: later) = main None ((inl <$> conns) ++ [inr e])
  ∧ dispatched (main None ((inl <$> conns) ++ inr e :: later)) = conns
  ∧ list.last (main None ((inl <$> conns) ++ inr e :: later)) = Some listener_closed
  ∧ dispatched (main (Some e) accepts) = []
  ∧ head (main (Some e) accepts) = Some go_get_zmq_updates
  ∧ head (main None accepts) = Some go_get_zmq_updates.
Proof.
  destruct (accept_loop_until_error conns e later) as [H1 H2].
  unfold main. split; [by rewrite H1|]. split; [exact H2|]. split; [|done].
  rewrite H1. clear H1 H2.
  change (list.last (go_get_zmq_updates :: log_startup ::
            accept_loop ((inl <$> conns) ++ [inr e])) = Some listener_closed).
  induction conns as [|c conns IH]; [done|].
  cbn [fmap list_fmap app accept_loop].
  rewrite !last_cons in IH. rewrite !last_cons.
  destruct (list.last (accept_loop ((inl <$> conns) ++ [inr e]))); [done|].
  exfalso. destruct conns; discriminate.
Qed.

End Dispatch.

(** C5 (witness): connection 1 redirected from 10.0.0.5, registered with a
    handler for protocol 0. *)
Lemma C5_dispatch_witness :
  let file : nat → nat + string := λ c, inl c in
  let mreq : Z → Z → Z → IPv6Mreq + Z :=
    λ _ _ _, inl {| Multiaddr := replicate 4 0%Z ++ [10; 0; 0; 5]%Z ++ replicate 8 0%Z;
                    Interface := 0 |} in
  let mtu : Z → Z → Z → IPv6MTUInfo + Z := λ _ _ _, inr 92%Z in
  let check : unit → list byte → option nat :=
    λ _ ip, if decide (ip = net_IPv4 10 0 0 5) then Some 7 else None in
  let factory : nat → Z → option string := λ _ p, if decide (p = 0%Z) then Some "twoWayProxy" else None in
  handleNewConn nat unit nat nat string file Z.of_nat mreq mtu check factory tt 1
  = [invoked "twoWayProxy" 7 1 (net_IPv4 10 0 0 5); closed 1].
Proof.
  intros file mreq mtu check factory.
  refine (proj1 (proj2 (C5_dispatch nat unit nat nat string file Z.of_nat mreq mtu
            check factory tt 1 1 (net_IPv4 10 0 0 5) _ _)) 7 "twoWayProxy" _ _);
    reflexivity.
Defined.

(** X18 (witness): an IPv4 connection to 10.0.0.5 on a socket that also
    answers the IPv6 query. *)
Lemma handler_gets_looked_up_destination_witness :
  let file : nat → nat + string := λ c, inl c in
  let mreq : Z → Z → Z → IPv6Mreq + Z :=
    λ _ _ _, inl {| Multiaddr := replicate 4 0%Z ++ [10; 0; 0; 5]%Z ++ replicate 8 0%Z;
                    Interface := 0 |} in
  let mtu : Z → Z → Z → IPv6MTUInfo + Z :=
    λ _ _ _, inl {| mtu_Addr := {| Family := 10; Port := 0; Flowinfo := 0;
                                   Addr := replicate 15 0%Z ++ [1%Z]; Scope_id := 0 |};
                    Mtu := 1500 |} in
  let check : unit → list byte → option nat :=
    λ _ ip, if decide (ip = net_IPv4 10 0 0 5) then Some 7 else None in
  length (net_IPv4 10 0 0 5) = 16 ∧ check tt (net_IPv4 10 0 0 5) = Some 7.
Proof.
  intros file mreq mtu check.
  pose (factory := (λ _ p, if decide (p = 0%Z) then Some "twoWayProxy" else None)
                   : nat → Z → option string).
  apply (handler_gets_looked_up_destination nat unit nat nat string file Z.of_nat
           mreq mtu check factory tt 1 "twoWayProxy" 7 1 (net_IPv4 10 0 0 5)).
  - intros fd level opt mtuinfo [= <-]. reflexivity.
  - apply elem_of_cons. by left.
Defined.

End Station.

(** ** The registration manager, from the specification

    [RegistrationManager] and [DecoyRegistration] live in the station
    library [./lib], which [main.go] imports as [dd].  Their contract is
    taken from sections 3 and 4.3 of the specification. *)

Module Lib.
Import Wire.

Section Manager.

(** The client-request record and the key material are owned by external
    schemas; [phantom_of], [covert_of] and [mask_of] read off a request what
    a registration records. *)
Variables ClientToStation ConjureKeys : Type.
Variable phantom_of : ClientToStation → ConjureKeys → list byte.
Variable covert_of mask_of : ClientToStation → string.
Variable ClientToStation_zero : ClientToStation.
Variable proto_unmarshal : list byte → ClientToStation → ClientToStation.
Variable generateKeys : list byte → ConjureKeys * option string.

(** Modelled from the spec: the Registration entity of section 3 (the Go
    struct [dd.DecoyRegistration] is not among the sources). *)
Record DecoyRegistration : Type := mkDecoyRegistration {
  phantomAddress : list byte;
  derivedKeys : ConjureKeys;
  covertTarget : string;
  mask : string;
  Flags : list byte;
  createdAt : Z;
  lastLiveCheck : Z
}.

(** Modelled from the spec: the registration table owned by
    [dd.RegistrationManager], keyed by phantom address, with the clock it
    reads and the configured time to live. *)
Record RegistrationManager : Type := mkRegistrationManager {
  table : gmap (list Z) DecoyRegistration;
  now : Z;
  ttl : Z
}.

(** Modelled from the spec: liveness, "whether a phantom address currently
    has an active, unexpired registration"; a registration expires when its
    age exceeds the time to live. *)
Definition live (m : RegistrationManager) (addr : list byte) : bool :=
  match table m !! addr with
  | Some r => bool_decide (now m - createdAt r ≤ ttl m)%Z
  | None => false
  end.

(** Modelled from the spec: [PhantomIsLive], the liveness check of step 4 of
    section 4.4. *)
Definition PhantomIsLive (m : RegistrationManager) (reg : DecoyRegistration) : bool :=
  live m (phantomAddress reg).

(** Modelled from the spec: [newRegistration] of section 4.3, "builds the
    value; does not insert it". *)
Definition NewRegistration (m : RegistrationManager) (c2s : ClientToStation)
    (keys : ConjureKeys) (flags : list byte) : option DecoyRegistration :=
  Some {| phantomAddress := phantom_of c2s keys;
          derivedKeys := keys;
          covertTarget := covert_of c2s;
          mask := mask_of c2s;
          Flags := flags;
          createdAt := now m;
          lastLiveCheck := now m |}.

(** Modelled from the spec: [addRegistration] of section 4.3, "inserts iff
    no live registration currently owns reg.phantomAddress; returns whether
    insertion occurred". *)
Definition addRegistration (m : RegistrationManager) (reg : DecoyRegistration) :
    RegistrationManager * bool :=
  if live m (phantomAddress reg) then (m, false)
  else ({| table := <[phantomAddress reg := reg]> (table m); now := now m; ttl := ttl m |}, true).

Definition AddRegistration (m : RegistrationManager) (reg : DecoyRegistration) :
    RegistrationManager :=
  (addRegistration m reg).1.

(** Modelled from the spec: [checkRegistration] of section 4.3, a read-only
    lookup that misses when no live registration matches. *)
Definition CheckRegistration (m : RegistrationManager) (addr : list byte) :
    option DecoyRegistration :=
  if live m addr then table m !! addr else None.

(** Modelled from the spec: [expire(now)] of section 4.3, which drops the
    registrations whose age exceeds the time to live. *)
Definition expire (t : Z) (m : RegistrationManager) : RegistrationManager :=
  {| table := filter (λ kv, t - createdAt kv.2 ≤ ttl m)%Z (table m); now := t; ttl := ttl m |}.

(** The same manager when its clock reads [t]. *)
Definition at_time (t : Z) (m : RegistrationManager) : RegistrationManager :=
  {| table := table m; now := t; ttl := ttl m |}.

(** The decoder and the ingest turn of [main.go], run against this manager. *)
Definition recieve_zmq_message :=
  Station.recieve_zmq_message ClientToStation ConjureKeys DecoyRegistration
    RegistrationManager ClientToStation_zero proto_unmarshal generateKeys NewRegistration.

Definition ingest :=
  Station.ingest ClientToStation ConjureKeys DecoyRegistration RegistrationManager
    ClientToStation_zero proto_unmarshal generateKeys NewRegistration
    PhantomIsLive AddRegistration.

(** The address a message decodes to does not depend on the manager. *)
Lemma recieve_phantom recv m m' reg :
  Station.newReg (recieve_zmq_message recv m) = Some reg →
  ∃ reg', Station.newReg (recieve_zmq_message recv m') = Some reg'
          ∧ Station.err (recieve_zmq_message recv m') = None
          ∧ phantomAddress reg' = phantomAddress reg.
Proof.
  unfold recieve_zmq_message, Station.recieve_zmq_message.
  destruct recv as [msg|e]; [|done].
  case_decide; [done|].
  destruct (Station.read_fields (NewReader msg)) as [f r]. simpl.
  unfold NewRegistration. intros [= <-]. eexists. split; [done|]. by split.
Qed.

(** Expiry removes exactly the registrations that are no longer live: a
    lookup sees the same liveness with or without it. *)
Lemma live_expire t m addr : live (expire t m) addr = live (at_time t m) addr.
Proof.
  unfold live, expire, at_time. cbn [table now ttl].
  rewrite map_lookup_filter.
  destruct (table m !! addr) as [r|]; [|done]. simpl.
  case_guard as Hage; simpl.
  - by rewrite !bool_decide_eq_true_2.
  - by rewrite bool_decide_eq_false_2.
Qed.

(** A registration created at [T] is live up to [T + ttl] and not after. *)
Lemma live_window m reg t :
  table m !! phantomAddress reg = Some reg →
  live (at_time t m) (phantomAddress reg) = bool_decide (t ≤ createdAt reg + ttl m)%Z.
Proof.
  intros Hin. unfold live, at_time. cbn [table now ttl]. rewrite Hin.
  apply bool_decide_ext. lia.
Qed.

(** A turn of the ingest loop either leaves the table as it was, or inserts
    the decoded registration at a phantom address that was not live. *)
Lemma ingest_adds_only_when_not_live m out recv :
  table (ingest (m, out) recv).1 = table m
  ∨ ∃ reg, Station.newReg (recieve_zmq_message recv m) = Some reg
           ∧ live m (phantomAddress reg) = false
           ∧ table (ingest (m, out) recv).1 = <[phantomAddress reg := reg]> (table m).
Proof.
  unfold ingest, Station.ingest. fold recieve_zmq_message.
  destruct (Station.err (recieve_zmq_message recv m)); [by left|].
  destruct (Station.newReg (recieve_zmq_message recv m)) as [reg|]; [|by left].
  unfold PhantomIsLive, AddRegistration, addRegistration.
  destruct (live m (phantomAddress reg)) eqn:El; simpl; [by left|].
  right. by exists reg.
Qed.

(** The loop of [main.go] with this manager's liveness check and any
    function at all in the place of [AddRegistration]. *)
Definition ingest_with (add : RegistrationManager → DecoyRegistration → RegistrationManager) :=
  Station.ingest ClientToStation ConjureKeys DecoyRegistration RegistrationManager
    ClientToStation_zero proto_unmarshal generateKeys NewRegistration
    PhantomIsLive add.

(** A message that decodes to a registration produced no error and no log
    line. *)
Lemma recieve_decoded recv m reg :
  Station.newReg (recieve_zmq_message recv m) = Some reg →
  Station.err (recieve_zmq_message recv m) = None
  ∧ Station.logged (recieve_zmq_message recv m) = []
  ∧ createdAt reg = now m.
Proof.
  unfold recieve_zmq_message, Station.recieve_zmq_message.
  destruct recv as [msg|e]; [|done].
  case_decide; [done|].
  destruct (Station.read_fields (NewReader msg)) as [f r]. simpl.
  unfold NewRegistration. by intros [= <-].
Qed.

(** C2. Scenario B on the specified manager. A message that decodes to a
    registration [reg] whose phantom address is not in the table makes the
    table gain exactly the entry for that address, and the loop logs it.
    After that, and until that registration expires, every message that
    decodes to a registration for the same phantom address is dropped by
    the loop's own liveness check: whatever function stands in the place of
    [AddRegistration], the turn leaves the manager and the log exactly as
    they were.  And in general a turn of the loop changes the manager only
    for a decoded registration whose phantom address is not live. *)
Theorem C2_duplicate_phantom_dropped m out msg reg :
  (0 ≤ ttl m)%Z →
  Station.newReg (recieve_zmq_message (inl msg) m) = Some reg →
  table m !! phantomAddress reg = None →
  let st1 := ingest (m, out) (inl msg) in
  table st1.1 = <[phantomAddress reg := reg]> (table m)
  ∧ size (table st1.1) = S (size (table m))
  ∧ st1.2 = out ++ [Station.log_new_registration reg]
  ∧ (∀ add t out' recv2 reg2,
       (now m ≤ t ≤ now m + ttl m)%Z →
       Station.newReg (recieve_zmq_message recv2 (at_time t st1.1)) = Some reg2 →
       phantomAddress reg2 = phantomAddress reg →
       ingest_with add (at_time t st1.1, out') recv2 = (at_time t st1.1, out'))
  ∧ (∀ add m' out' recv,
       (ingest_with add (m', out') recv).1 ≠ m' →
       ∃ reg', Station.newReg (recieve_zmq_message recv m') = Some reg'
               ∧ live m' (phantomAddress reg') = false
               ∧ (ingest_with add (m', out') recv).1 = add m' reg').
Proof.
  intros Httl Hdec Hfree st1.
  destruct (recieve_decoded _ _ _ Hdec) as (Herr & Hlog & Hcreated).
  assert (st1 = ({| table := <[phantomAddress reg := reg]> (table m);
                    now := now m; ttl := ttl m |},
                 out ++ [Station.log_new_registration reg])) as Hst1.
  { subst st1. unfold ingest, Station.ingest. fold recieve_zmq_message.
    rewrite Herr, Hdec, Hlog, app_nil_r.
    unfold PhantomIsLive, AddRegistration, addRegistration, live.
    by rewrite Hfree. }
  rewrite Hst1. cbn [fst snd table].
  split; [done|]. split; [by apply map_size_insert_None|]. split; [done|]. split.
  - intros add t out' recv2 reg2 Ht Hdec2 Haddr.
    destruct (recieve_decoded _ _ _ Hdec2) as (Herr2 & Hlog2 & _).
    unfold ingest_with, Station.ingest. fold recieve_zmq_message.
    rewrite Herr2, Hdec2, Hlog2, app_nil_r.
    assert (PhantomIsLive
              (at_time t {| table := <[phantomAddress reg := reg]> (table m);
                            now := now m; ttl := ttl m |}) reg2 = true) as ->; [|done].
    unfold PhantomIsLive, live, at_time. cbn [table now ttl]. rewrite Haddr.
    rewrite lookup_insert_eq. apply bool_decide_eq_true. lia.
  - intros add m' out' recv Hchanged.
    destruct (Station.ingest_guard ClientToStation ConjureKeys DecoyRegistration
                RegistrationManager ClientToStation_zero proto_unmarshal generateKeys
                NewRegistration PhantomIsLive add m' out' recv)
      as [Hsame|(reg' & Hd & _ & Hl & Hadd)]; [done|].
    exists reg'. split; [exact Hd|]. split; [exact Hl|exact Hadd].
Qed.

End Manager.

(** C2 (witness): [Station.msg_layout] arrives at time 0 at an empty
    manager whose registrations live for 60, and [Station.msg_overrun], a
    different message for the same phantom address 10.0.0.5, at time 30;
    the loop runs with a function that would insert without looking. *)
Lemma C2_duplicate_phantom_dropped_witness :
  let phantom : list byte → list byte → list byte := λ _ _, [10; 0; 0; 5]%Z in
  let covert : list byte → string := λ _, "example.internal:8080" in
  let no_mask : list byte → string := λ _, "" in
  let unmarshal : list byte → list byte → list byte := λ b _, b in
  let keys : list byte → list byte * option string := λ secret, (secret, None) in
  let m0 := {| table := (∅ : gmap (list Z) (DecoyRegistration (list byte))); now := 0; ttl := 60 |} in
  let force : RegistrationManager (list byte) → DecoyRegistration (list byte)
              → RegistrationManager (list byte) :=
    λ m r, {| table := <[phantomAddress _ r := r]> (table _ m);
              now := now _ m; ttl := ttl _ m |} in
  let st1 := ingest (list byte) (list byte) phantom covert no_mask [] unmarshal keys
               (m0, []) (inl Station.msg_layout) in
  size (table _ st1.1) = 1
  ∧ ingest_with (list byte) (list byte) phantom covert no_mask [] unmarshal keys force
      (at_time _ 30 st1.1, []) (inl Station.msg_overrun)
    = (at_time _ 30 st1.1, []).
Proof.
  intros phantom covert no_mask unmarshal keys m0 force st1.
  pose (reg0 := {| phantomAddress := [10; 0; 0; 5]%Z;
                   derivedKeys := (7 :: replicate 16 2 ++ replicate 15 1)%Z;
                   covertTarget := "example.internal:8080";
                   mask := "";
                   Flags := [0%Z];
                   createdAt := 0;
                   lastLiveCheck := 0 |}).
  pose (reg2 := {| phantomAddress := [10; 0; 0; 5]%Z;
                   derivedKeys := (7 :: replicate 31 2)%Z;
                   covertTarget := "example.internal:8080";
                   mask := "";
                   Flags := [0%Z];
                   createdAt := 30;
                   lastLiveCheck := 30 |}).
  assert (0 ≤ ttl _ m0)%Z as Httl by (simpl; lia).
  assert (Station.newReg (recieve_zmq_message (list byte) (list byte) phantom covert
            no_mask [] unmarshal keys (inl Station.msg_layout) m0) = Some reg0) as Hdec
    by reflexivity.
  assert (table _ m0 !! phantomAddress _ reg0 = None) as Hfree by apply lookup_empty.
  destruct (C2_duplicate_phantom_dropped (list byte) (list byte) phantom covert no_mask
              [] unmarshal keys m0 [] Station.msg_layout reg0 Httl Hdec Hfree)
    as (_ & Hsize & _ & Hdup & _).
  split.
  - exact Hsize.
  - apply (Hdup force 30%Z [] (inl Station.msg_overrun) reg2).
    + simpl. lia.
    + reflexivity.
    + reflexivity.
Defined.

End Lib.

(** ** [application/detector/main.go]: the packet-capture detector *)

Module Detector.
Import Wire.

(** [gopacket.Endpoint] (its raw bytes) and [gopacket.Flow]. *)
Record Endpoint : Type := mkEndpoint { Raw : list byte }.
Record Flow : Type := mkFlow { Src : Endpoint; Dst : Endpoint }.

(** [layers.TCP]; the detector reads its destination port only. *)
Record TCP : Type := mkTCP { DstPort : Z }.

(** A captured frame as [handlePacket] sees it.  [NetworkLayer],
    [TCPLayer] (that is [packet.Layer(layers.LayerTypeTCP)]) and
    [ApplicationLayer] are nil interfaces, here [None], when the frame has no
    such layer; a network layer is given by its [NetworkFlow()], an
    application layer by its [Payload()]. *)
Record Packet : Type := mkPacket {
  NetworkLayer : option Flow;
  CaptureLength : Z;
  TCPLayer : option TCP;
  ApplicationLayer : option (list byte)
}.

(** Modelled from the spec: DetectorStats, "counters (byte total, v4/v6
    packet counts)"; the type's declaration is not in this file.  All three
    are taken to be [uint64], as the conversion on line 96 makes
    [BytesTotal]. *)
Record DetectorStats : Type := mkDetectorStats {
  BytesTotal : Z;
  V4PacketCount : Z;
  V6PacketCount : Z
}.

(** The arguments of one call through [det.IsRegistered], named as the
    field's type [func(src, dst string, dstPort uint16) bool] names them. *)
Record IsRegisteredCall : Type := mkCall {
  arg_src : string;
  arg_dst : string;
  arg_dstPort : Z
}.

(** What the detector writes to its logger and asks of its callback. *)
Inductive Event : Type :=
| Warn (line : string)                    (* det.Logger.Warn(line) *)
| Println_confirmed (src dst : Endpoint)  (* det.Logger.Println("confirmed", src, "->", dst) *)
| Println_forward (src dst : Endpoint)    (* det.Logger.Println(src, "->", dst) *)
| Printf (line : string)                  (* det.Logger.Printf(line) *)
| called (c : IsRegisteredCall).

(** The [Detector] struct as [main] builds it: callback, logger and stats
    are set.  The logger is write-only; what is written to it is the trace
    the functions below return. *)
Record Detector : Type := mkDetector {
  Iface : string;
  FilterList : list string;
  IsRegistered : ∀ (src dst : string) (dstPort : Z), bool;
  Tags : list string;
  exit : bool;
  StatsFrequency : Z;
  stats : DetectorStats
}.

(** A call either returns or panics (a method call on a nil interface:
    "invalid memory address or nil pointer dereference"); the trace is what
    was written before. *)
Inductive Result (A : Type) : Type :=
| Done (a : A)
| Panic (trace : list Event).
Arguments Done {A} a.
Arguments Panic {A} trace.

Definition uint64 (x : Z) : Z := x `mod` 2 ^ 64.

Definition with_stats (det : Detector) (st : DetectorStats) : Detector :=
  {| Iface := Iface det; FilterList := FilterList det; IsRegistered := IsRegistered det;
     Tags := Tags det; exit := exit det; StatsFrequency := StatsFrequency det;
     stats := st |}.

Definition with_exit (det : Detector) (b : bool) : Detector :=
  {| Iface := Iface det; FilterList := FilterList det; IsRegistered := IsRegistered det;
     Tags := Tags det; exit := b; StatsFrequency := StatsFrequency det;
     stats := stats det |}.

(** [[]byte(tag)] *)
Definition bytes_of_string (str : string) : list byte :=
  (λ c, Z.of_N (Ascii.N_of_ascii c)) <$> String.list_ascii_of_string str.

Fixpoint has_prefix (b sub : list byte) : bool :=
  match sub, b with
  | [], _ => true
  | _ :: _, [] => false
  | y :: sub', x :: b' => bool_decide (x = y) && has_prefix b' sub'
  end.

(** [bytes.Contains(b, subslice)] *)
Fixpoint bytes_Contains (b sub : list byte) : bool :=
  has_prefix b sub ||
  match b with
  | [] => false
  | _ :: b' => bytes_Contains b' sub
  end.

(** [generateFilters], lines 140-152. *)
Definition generateFilters (filterList : list string) : string :=
  match filterList with
  | [] => ""
  | first :: rest =>
      foldl (λ out entry, out +:+ (" and not src " +:+ entry))
            ("tcp and not src " +:+ first) rest
  end.

(** The filter as the claim words it: each remaining address, in order,
    behind [" and not src "]. *)
Fixpoint exclusions (rest : list string) : string :=
  match rest with
  | [] => ""
  | entry :: rest' => " and not src " +:+ entry +:+ exclusions rest'
  end.

Section Capture.

(** [Endpoint.String()], gopacket's formatting of an endpoint. *)
Variable Endpoint_String : Endpoint → string.

(** The loop of [checkForTags], lines 122-130, over the tags still to try. *)
Fixpoint checkForTags_loop (tags : list string) (packet : Packet)
    (trace : list Event) : Result (list Event) :=
  match tags with
  | [] => Done trace
  | tag :: tags' =>
      match ApplicationLayer packet with
      | None => Panic trace
      | Some payload =>
          if bytes_Contains payload (bytes_of_string tag) then
            match NetworkLayer packet with
            | None => Panic trace
            | Some flow =>
                checkForTags_loop tags' packet
                  (trace ++ [Println_confirmed (Src flow) (Dst flow)])
            end
          else checkForTags_loop tags' packet trace
      end
  end.

Definition checkForTags (det : Detector) (packet : Packet) (trace : list Event) :
    Result (list Event) :=
  checkForTags_loop (Tags det) packet trace.

(** [forwardPacket], lines 134-138. *)
Definition forwardPacket (det : Detector) (packet : Packet) (trace : list Event) :
    Result (Detector * list Event) :=
  match NetworkLayer packet with
  | None => Panic trace
  | Some flow => Done (det, trace ++ [Println_forward (Src flow) (Dst flow)])
  end.

(** Lines 96-104 of [handlePacket]: the byte total and the per-family
    packet counters. *)
Definition classify (det : Detector) (dst : Endpoint) (packet : Packet) :
    Detector * list Event :=
  let st := stats det in
  let st := {| BytesTotal := uint64 (BytesTotal st + uint64 (CaptureLength packet));
               V4PacketCount := V4PacketCount st;
               V6PacketCount := V6PacketCount st |} in
  if decide (length (Raw dst) = 4) then
    (with_stats det {| BytesTotal := BytesTotal st;
                       V4PacketCount := uint64 (V4PacketCount st + 1);
                       V6PacketCount := V6PacketCount st |}, [])
  else if decide (length (Raw dst) = 16) then
    (with_stats det {| BytesTotal := BytesTotal st;
                       V4PacketCount := V4PacketCount st;
                       V6PacketCount := uint64 (V6PacketCount st + 1) |}, [])
  else (with_stats det st, [Warn "IP is not valid as IPv4 or IPv6"]).

(** Lines 106-117 of [handlePacket]: the TCP check, the tag scan and the
    match check. *)
Definition afterClassify (det : Detector) (packet : Packet) (dst src : Endpoint)
    (trace : list Event) : Result (Detector * list Event) :=
  match TCPLayer packet with
  | None => Done (det, trace)
  | Some tcp =>
      let dstPort := DstPort tcp in
      match checkForTags det packet trace with
      | Panic tr => Panic tr
      | Done trace =>
          let c := {| arg_src := Endpoint_String dst;
                      arg_dst := Endpoint_String src;
                      arg_dstPort := dstPort |} in
          let trace := trace ++ [called c] in
          if IsRegistered det (Endpoint_String dst) (Endpoint_String src) dstPort
          then forwardPacket det packet trace
          else Done (det, trace)
      end
  end.

(** [handlePacket], lines 91-118. *)
Definition handlePacket (det : Detector) (packet : Packet) :
    Result (Detector * list Event) :=
  match NetworkLayer packet with
  | None => Panic []
  | Some flow =>
      let dst := Dst flow in
      let src := Src flow in
      let '(det, trace) := classify det dst packet in
      afterClassify det packet dst src trace
  end.

(** The capture loop of [Run], lines 71-76, over the frames the packet
    source delivers. *)
Fixpoint capture_loop (det : Detector) (packets : list Packet) (trace : list Event) :
    Result (Detector * list Event) :=
  match packets with
  | [] => Done (with_exit det true, trace ++ [Printf "Detector Shutting Down\n"])
  | packet :: packets' =>
      match handlePacket det packet with
      | Panic tr => Panic (trace ++ tr)
      | Done (det', tr) => capture_loop det' packets' (trace ++ tr)
      end
  end.

(** The calls made through [det.IsRegistered], read off a trace. *)
Definition calls (trace : list Event) : list IsRegisteredCall :=
  omap (λ e, match e with called c => Some c | _ => None end) trace.

(** *** Frames and detectors used below *)

(** The detector [main] builds, lines 176-185 (no tags, a callback that is
    always true). *)
Definition main_detector : Detector :=
  {| Iface := "wlp4s0";
     FilterList := ["192.168.1.104"];
     IsRegistered := λ _ _ _, true;
     Tags := [];
     exit := false;
     StatsFrequency := 3;
     stats := {| BytesTotal := 0; V4PacketCount := 0; V6PacketCount := 0 |} |}.

Definition with_tags (det : Detector) (tags : list string) : Detector :=
  {| Iface := Iface det; FilterList := FilterList det; IsRegistered := IsRegistered det;
     Tags := tags; exit := exit det; StatsFrequency := StatsFrequency det;
     stats := stats det |}.

(** An ARP frame: 42 bytes, no network layer, so nothing above it. *)
Definition frame_arp : Packet :=
  {| NetworkLayer := None; CaptureLength := 42; TCPLayer := None; ApplicationLayer := None |}.

(** A TCP SYN from 10.0.0.1 to 10.0.0.5:443: 54 bytes, no payload, so no
    application layer. *)
Definition frame_syn : Packet :=
  {| NetworkLayer := Some {| Src := {| Raw := [10; 0; 0; 1]%Z |};
                             Dst := {| Raw := [10; 0; 0; 5]%Z |} |};
     CaptureLength := 54;
     TCPLayer := Some {| DstPort := 443 |};
     ApplicationLayer := None |}.

(** A frame whose destination endpoint is 6 bytes long, carrying TCP to
    port 443 and the payload "hi". *)
Definition frame_dst6 : Packet :=
  {| NetworkLayer := Some {| Src := {| Raw := [10; 0; 0; 1]%Z |};
                             Dst := {| Raw := [1; 2; 3; 4; 5; 6]%Z |} |};
     CaptureLength := 60;
     TCPLayer := Some {| DstPort := 443 |};
     ApplicationLayer := Some [104; 105]%Z |}.


(** *** The tag scan and the later stages *)

Lemma calls_app l1 l2 : calls (l1 ++ l2) = calls l1 ++ calls l2.
Proof. apply omap_app. Qed.

(** With a network layer, and with no tags or with an application layer,
    the tag scan returns; it only adds "confirmed" lines. *)
Lemma checkForTags_loop_returns tags packet flow trace :
  NetworkLayer packet = Some flow →
  tags = [] ∨ is_Some (ApplicationLayer packet) →
  ∃ extra, checkForTags_loop tags packet trace = Done (trace ++ extra) ∧ calls extra = [].
Proof.
  intros Hnet Hok. revert trace.
  induction tags as [|tag tags IH]; intros trace; simpl.
  - exists []. by rewrite app_nil_r.
  - destruct Hok as [?|[payload Hpay]]; [done|].
    rewrite Hpay, Hnet.
    destruct (bytes_Contains payload (bytes_of_string tag)).
    + destruct (IH (or_intror (ex_intro _ payload Hpay))
                  (trace ++ [Println_confirmed (Src flow) (Dst flow)])) as (extra & -> & Hc).
      exists (Println_confirmed (Src flow) (Dst flow) :: extra).
      split; [by rewrite <- app_assoc|done].
    + apply IH. right. by exists payload.
Qed.

(** The tag scan panics on its first tag when the frame has no application
    layer. *)
Lemma checkForTags_loop_no_payload tag tags packet trace :
  ApplicationLayer packet = None →
  checkForTags_loop (tag :: tags) packet trace = Panic trace.
Proof. intros Hpay. simpl. by rewrite Hpay. Qed.

(** The stages after classify leave the detector as they found it, and
    return for every frame with a network layer that has no TCP layer, or
    meets no tags, or has an application layer. *)
Lemma afterClassify_returns det packet flow trace :
  NetworkLayer packet = Some flow →
  TCPLayer packet = None ∨ Tags det = [] ∨ is_Some (ApplicationLayer packet) →
  ∃ extra, afterClassify det packet (Dst flow) (Src flow) trace = Done (det, trace ++ extra).
Proof.
  intros Hnet Hok. unfold afterClassify.
  destruct (TCPLayer packet) as [tcp|]; [|exists []; by rewrite app_nil_r].
  assert (Tags det = [] ∨ is_Some (ApplicationLayer packet)) as Hok'.
  { destruct Hok as [?|[?|?]]; [done|by left|by right]. }
  unfold checkForTags.
  destruct (checkForTags_loop_returns (Tags det) packet flow trace Hnet Hok')
    as (extra & -> & _).
  unfold forwardPacket. rewrite Hnet.
  destruct (IsRegistered det _ _ _); eexists; by rewrite <- !app_assoc.
Qed.

Lemma classify_anomalous det dst packet :
  length (Raw dst) ≠ 4 → length (Raw dst) ≠ 16 →
  classify det dst packet =
    (with_stats det
       {| BytesTotal := uint64 (BytesTotal (stats det) + uint64 (CaptureLength packet));
          V4PacketCount := V4PacketCount (stats det);
          V6PacketCount := V6PacketCount (stats det) |},
     [Warn "IP is not valid as IPv4 or IPv6"]).
Proof. intros H4 H16. unfold classify. by rewrite !decide_False. Qed.

Lemma classify_no_calls det dst packet : calls (classify det dst packet).2 = [].
Proof. unfold classify. by repeat case_decide. Qed.

(** *** Claims on the detector *)

(** C4 (evaluation at the failing inputs). A frame without a network layer
    makes [handlePacket] panic on its first line, whatever the detector, and
    the capture loop ends there with the frames behind it unprocessed; and a
    TCP frame without an application layer makes the tag scan panic as soon
    as the detector has a tag to look for. *)
Theorem C4_frame_panics det rest tag tags :
  handlePacket det frame_arp = Panic []
  ∧ capture_loop det (frame_arp :: rest) [] = Panic []
  ∧ handlePacket (with_tags det (tag :: tags)) frame_syn = Panic []
  ∧ capture_loop (with_tags det (tag :: tags)) (frame_syn :: rest) [] = Panic [].
Proof.
  assert (handlePacket (with_tags det (tag :: tags)) frame_syn = Panic []) as Hsyn.
  { reflexivity. }
  split; [done|]. split; [done|]. split; [exact Hsyn|].
  cbn [capture_loop]. by rewrite Hsyn.
Qed.


(** C9. For a frame that reaches the match check (it has a network layer
    and a TCP layer, and the tag scan returns), [handlePacket] calls
    [det.IsRegistered] exactly once, with the frame's destination address
    in the parameter the field's type names [src] and the source address in
    the one it names [dst], and the TCP destination port; the frame is
    forwarded exactly when that call is true. *)
Theorem C9_match_check_arguments_transposed det packet flow tcp :
  NetworkLayer packet = Some flow →
  TCPLayer packet = Some tcp →
  Tags det = [] ∨ is_Some (ApplicationLayer packet) →
  ∃ det' before c,
    handlePacket det packet =
      Done (det', before ++ called c ::
              (if IsRegistered det (Endpoint_String (Dst flow))
                    (Endpoint_String (Src flow)) (DstPort tcp)
               then [Println_forward (Src flow) (Dst flow)] else []))
    ∧ calls before = []
    ∧ arg_src c = Endpoint_String (Dst flow)
    ∧ arg_dst c = Endpoint_String (Src flow)
    ∧ arg_dstPort c = DstPort tcp.
Proof.
  intros Hnet Htcp Hok. unfold handlePacket. rewrite Hnet.
  destruct (classify det (Dst flow) packet) as [det1 tr1] eqn:Ecl.
  pose proof (classify_no_calls det (Dst flow) packet) as Hc1.
  rewrite Ecl in Hc1; simpl in Hc1.
  assert (Tags det1 = Tags det ∧ IsRegistered det1 = IsRegistered det) as [HT HI].
  { revert Ecl. unfold classify. repeat case_decide; by intros [= <- _]. }
  unfold afterClassify, checkForTags. rewrite Htcp, HT, HI.
  destruct (checkForTags_loop_returns (Tags det) packet flow tr1 Hnet Hok)
    as (extra & -> & Hc2).
  unfold forwardPacket. rewrite Hnet.
  exists det1, (tr1 ++ extra),
    {| arg_src := Endpoint_String (Dst flow);
       arg_dst := Endpoint_String (Src flow);
       arg_dstPort := DstPort tcp |}.
  split.
  - destruct (IsRegistered det _ _ _); by rewrite <- ?app_assoc.
  - rewrite calls_app, Hc1, Hc2. done.
Qed.

(** *** Accounting, the tag scan and start-up *)

(** The stages after classify hand back the detector they were given. *)
Lemma afterClassify_same_detector det packet dst src trace det' trace' :
  afterClassify det packet dst src trace = Done (det', trace') → det' = det.
Proof.
  unfold afterClassify.
  destruct (TCPLayer packet) as [tcp|]; [|by intros [= <- _]].
  destruct (checkForTags det packet trace) as [tr|tr]; [|done].
  destruct (IsRegistered det _ _ _); [|by intros [= <- _]].
  unfold forwardPacket. destruct (NetworkLayer packet); [|done]. by intros [= <- _].
Qed.

(** What classify does to the three counters, by address length. *)
Definition count_if (b : bool) (n : Z) : Z := if b then uint64 (n + 1) else n.

Definition family (len : nat) (packet : Packet) : bool :=
  match NetworkLayer packet with
  | Some flow => bool_decide (length (Raw (Dst flow)) = len)
  | None => false
  end.

Lemma classify_stats det dst packet :
  stats (classify det dst packet).1 =
    {| BytesTotal := uint64 (BytesTotal (stats det) + uint64 (CaptureLength packet));
       V4PacketCount :=
         count_if (bool_decide (length (Raw dst) = 4)) (V4PacketCount (stats det));
       V6PacketCount :=
         count_if (bool_decide (length (Raw dst) = 16)) (V6PacketCount (stats det)) |}.
Proof.
  unfold classify, count_if.
  destruct (decide (length (Raw dst) = 4)) as [E4|N4].
  - rewrite (bool_decide_eq_true_2 _ E4).
    rewrite bool_decide_eq_false_2 by (rewrite E4; lia). done.
  - rewrite (bool_decide_eq_false_2 _ N4).
    destruct (decide (length (Raw dst) = 16)) as [E16|N16].
    + by rewrite (bool_decide_eq_true_2 _ E16).
    + by rewrite (bool_decide_eq_false_2 _ N16).
Qed.

Lemma classify_config det dst packet :
  let det' := (classify det dst packet).1 in
  Iface det' = Iface det ∧ FilterList det' = FilterList det
  ∧ IsRegistered det' = IsRegistered det ∧ Tags det' = Tags det
  ∧ exit det' = exit det ∧ StatsFrequency det' = StatsFrequency det.
Proof. unfold classify. by repeat case_decide. Qed.

(** A frame [handlePacket] returns from had a network layer, and the
    detector it leaves is the one classify made. *)
Lemma handlePacket_returns det packet det' trace :
  handlePacket det packet = Done (det', trace) →
  ∃ flow, NetworkLayer packet = Some flow ∧ det' = (classify det (Dst flow) packet).1.
Proof.
  unfold handlePacket.
  destruct (NetworkLayer packet) as [flow|]; [|done].
  destruct (classify det (Dst flow) packet) as [det1 tr1] eqn:Ecl.
  intros Hdone. apply afterClassify_same_detector in Hdone. subst det'.
  exists flow. by rewrite Ecl.
Qed.

(** X9. Whenever [handlePacket] returns, the frame had a network layer, its
    capture length has been added to the byte total (modulo 2^64), the v4
    counter went up by one exactly if the destination address has 4 bytes
    and the v6 counter exactly if it has 16, and nothing else of the
    detector changed.  This holds for frames that are then dropped for
    having no TCP layer as much as for forwarded ones. *)
Theorem handlePacket_accounting det packet det' trace :
  handlePacket det packet = Done (det', trace) →
  ∃ flow,
    NetworkLayer packet = Some flow
    ∧ BytesTotal (stats det')
      = uint64 (BytesTotal (stats det) + uint64 (CaptureLength packet))
    ∧ V4PacketCount (stats det')
      = count_if (bool_decide (length (Raw (Dst flow)) = 4)) (V4PacketCount (stats det))
    ∧ V6PacketCount (stats det')
      = count_if (bool_decide (length (Raw (Dst flow)) = 16)) (V6PacketCount (stats det))
    ∧ Iface det' = Iface det ∧ FilterList det' = FilterList det
    ∧ IsRegistered det' = IsRegistered det ∧ Tags det' = Tags det
    ∧ exit det' = exit det ∧ StatsFrequency det' = StatsFrequency det.
Proof.
  intros Hdone. destruct (handlePacket_returns _ _ _ _ Hdone) as (flow & Hnet & ->).
  exists flow. rewrite (classify_stats det (Dst flow) packet).
  cbn [BytesTotal V4PacketCount V6PacketCount].
  split; [done|]. split; [done|]. split; [done|]. split; [done|].
  apply classify_config.
Qed.

(** The totals a run of frames adds up to. *)
Definition bytes_captured (packets : list Packet) : Z :=
  foldr (λ p total, uint64 (CaptureLength p) + total)%Z 0%Z packets.

Definition frames_of (len : nat) (packets : list Packet) : Z :=
  Z.of_nat (length (filter (λ p, family len p = true) packets)).

(** The three counters hold [uint64] values. *)
Definition in_range (st : DetectorStats) : Prop :=
  (0 ≤ BytesTotal st < 2 ^ 64)%Z
  ∧ (0 ≤ V4PacketCount st < 2 ^ 64)%Z
  ∧ (0 ≤ V6PacketCount st < 2 ^ 64)%Z.

Lemma uint64_add_l a b : uint64 (uint64 a + b) = uint64 (a + b).
Proof. unfold uint64. by rewrite Z.add_mod_idemp_l. Qed.

Lemma uint64_add_r a b : uint64 (a + uint64 b) = uint64 (a + b).
Proof. unfold uint64. by rewrite Z.add_mod_idemp_r. Qed.

Lemma uint64_range x : (0 ≤ uint64 x < 2 ^ 64)%Z.
Proof. unfold uint64. by apply Z.mod_pos_bound. Qed.

Lemma uint64_small x : (0 ≤ x < 2 ^ 64)%Z → uint64 x = x.
Proof. unfold uint64. apply Z.mod_small. Qed.

Lemma classify_in_range det dst packet :
  in_range (stats det) → in_range (stats (classify det dst packet).1).
Proof.
  intros (Hb & H4 & H6). rewrite classify_stats. unfold in_range, count_if.
  cbn [BytesTotal V4PacketCount V6PacketCount].
  split; [apply uint64_range|].
  split; case_bool_decide; try apply uint64_range; done.
Qed.

Lemma frames_of_cons len p packets :
  frames_of len (p :: packets)
  = ((if family len p then 1 else 0) + frames_of len packets)%Z.
Proof.
  unfold frames_of. rewrite filter_cons.
  destruct (family len p); [rewrite decide_True by done|rewrite decide_False by done];
    cbn [length]; lia.
Qed.

Lemma capture_loop_counts packets det trace0 det' trace :
  in_range (stats det) →
  capture_loop det packets trace0 = Done (det', trace) →
  BytesTotal (stats det') = uint64 (BytesTotal (stats det) + bytes_captured packets)
  ∧ V4PacketCount (stats det') = uint64 (V4PacketCount (stats det) + frames_of 4 packets)
  ∧ V6PacketCount (stats det') = uint64 (V6PacketCount (stats det) + frames_of 16 packets)
  ∧ exit det' = true
  ∧ list.last trace = Some (Printf "Detector Shutting Down\n").
Proof.
  revert det trace0.
  induction packets as [|p packets IH]; intros det trace0 Hrange.
  - cbn [capture_loop]. intros [= <- <-]. destruct Hrange as (Hb & H4 & H6).
    cbn [stats with_exit exit bytes_captured foldr]. unfold frames_of. cbn [filter length].
    rewrite !Z.add_0_r, !uint64_small by done.
    split; [done|]. split; [done|]. split; [done|]. split; [done|]. apply last_snoc.
  - cbn [capture_loop].
    destruct (handlePacket det p) as [[det1 tr1]|tr1] eqn:Ehp; [|done].
    intros Hloop.
    destruct (handlePacket_returns _ _ _ _ Ehp) as (flow & Hnet & ->).
    specialize (IH _ _ (classify_in_range det (Dst flow) p Hrange) Hloop)
      as (Hb & H4 & H6 & Hexit & Hlast).
    rewrite classify_stats in Hb, H4, H6.
    cbn [BytesTotal V4PacketCount V6PacketCount] in Hb, H4, H6.
    rewrite !frames_of_cons. unfold family. rewrite Hnet.
    cbn [bytes_captured foldr]. fold (bytes_captured packets).
    split. { rewrite Hb, uint64_add_l. f_equal. lia. }
    split. { rewrite H4. destruct (bool_decide (length (Raw (Dst flow)) = 4));
               cbn [count_if]; [rewrite uint64_add_l|]; f_equal; lia. }
    split. { rewrite H6. destruct (bool_decide (length (Raw (Dst flow)) = 16));
               cbn [count_if]; [rewrite uint64_add_l|]; f_equal; lia. }
    done.
Qed.

(** X10. When the capture loop runs to the end of its frames, with no reset
    of the counters in between, the byte total has grown by the sum of the
    capture lengths, the v4 counter by the number of frames with a 4-byte
    destination and the v6 counter by the number with a 16-byte one, all
    modulo 2^64; the exit flag is set and the last line logged is the
    shutdown notice. *)
Theorem capture_loop_totals det packets det' trace :
  in_range (stats det) →
  capture_loop det packets [] = Done (det', trace) →
  BytesTotal (stats det') = uint64 (BytesTotal (stats det) + bytes_captured packets)
  ∧ V4PacketCount (stats det') = uint64 (V4PacketCount (stats det) + frames_of 4 packets)
  ∧ V6PacketCount (stats det') = uint64 (V6PacketCount (stats det) + frames_of 16 packets)
  ∧ in_range (stats det')
  ∧ exit det' = true
  ∧ list.last trace = Some (Printf "Detector Shutting Down\n").
Proof.
  intros Hrange Hloop.
  destruct (capture_loop_counts packets det [] det' trace Hrange Hloop)
    as (Hb & H4 & H6 & Hexit & Hlast).
  split; [exact Hb|]. split; [exact H4|]. split; [exact H6|].
  split; [|by split].
  unfold in_range. rewrite Hb, H4, H6. repeat split; apply uint64_range.
Qed.

(** [has_prefix] and [bytes_Contains] mean what [bytes.HasPrefix] and
    [bytes.Contains] are documented to mean. *)
Lemma has_prefix_spec b sub : has_prefix b sub = true ↔ ∃ post, b = sub ++ post.
Proof.
  revert b. induction sub as [|y sub IH]; intros b.
  - destruct b; (split; [intros _; by eexists|done]).
  - destruct b as [|x b]; cbn [has_prefix].
    + split; [done|]. by intros [post ?].
    + rewrite andb_true_iff, bool_decide_eq_true, IH. split.
      * intros [-> [post ->]]. by exists post.
      * intros [post [= -> ->]]. split; [done|]. by exists post.
Qed.

Lemma bytes_Contains_spec b sub :
  bytes_Contains b sub = true ↔ ∃ pre post, b = pre ++ sub ++ post.
Proof.
  induction b as [|x b IH].
  - cbn [bytes_Contains]. rewrite orb_false_r, has_prefix_spec. split.
    + intros [post ->]. by exists [], post.
    + intros (pre & post & Heq). destruct pre; [by exists post|done].
  - cbn [bytes_Contains]. rewrite orb_true_iff, has_prefix_spec, IH. split.
    + intros [[post ->]|(pre & post & ->)].
      * by exists [], post.
      * by exists (x :: pre), post.
    + intros (pre & post & Heq). destruct pre as [|p pre].
      * left. by exists post.
      * right. injection Heq as -> ->. by exists pre, post.
Qed.

Lemma checkForTags_loop_confirms tags packet flow payload trace :
  NetworkLayer packet = Some flow →
  ApplicationLayer packet = Some payload →
  checkForTags_loop tags packet trace =
    Done (trace ++
          ((λ _, Println_confirmed (Src flow) (Dst flow)) <$>
             filter (λ tag, bytes_Contains payload (bytes_of_string tag) = true) tags)).
Proof.
  intros Hnet Hpay. revert trace.
  induction tags as [|tag tags IH]; intros trace; cbn [checkForTags_loop].
  - by rewrite app_nil_r.
  - rewrite Hpay, Hnet, filter_cons.
    destruct (bytes_Contains payload (bytes_of_string tag)) eqn:Ec.
    + rewrite decide_True by done. rewrite IH, <- app_assoc. done.
    + rewrite decide_False by done. apply IH.
Qed.

(** X11. The tag scan of a frame with a network layer and an application
    payload returns, having logged one "confirmed" line, with the frame's
    source and destination, for each configured tag that occurs in the
    payload as a run of consecutive bytes, a tag listed twice counting
    twice, and nothing else.  So such a line is logged exactly when some
    tag occurs in the payload; the empty tag occurs in every payload. *)
Theorem checkForTags_confirms det packet flow payload trace :
  NetworkLayer packet = Some flow →
  ApplicationLayer packet = Some payload →
  let hits := filter (λ tag, bytes_Contains payload (bytes_of_string tag) = true) (Tags det) in
  checkForTags det packet trace =
    Done (trace ++ replicate (length hits) (Println_confirmed (Src flow) (Dst flow)))
  ∧ (hits ≠ [] ↔ ∃ tag pre post,
                   tag ∈ Tags det ∧ payload = pre ++ bytes_of_string tag ++ post)
  ∧ ("" ∈ Tags det → hits ≠ []).
Proof.
  intros Hnet Hpay hits. unfold checkForTags.
  rewrite (checkForTags_loop_confirms _ _ _ _ _ Hnet Hpay). fold hits.
  assert (∀ tag, tag ∈ hits ↔ tag ∈ Tags det
            ∧ ∃ pre post, payload = pre ++ bytes_of_string tag ++ post) as Hhits.
  { intros tag. unfold hits. rewrite list_elem_of_filter, bytes_Contains_spec. tauto. }
  split; [|split].
  - do 2 f_equal. clear. induction hits as [|h hits IH]; [done|].
    cbn [fmap list_fmap length replicate]. f_equal. exact IH.
  - split.
    + intros Hne. destruct hits as [|tag hits'] eqn:Eh; [done|].
      destruct (proj1 (Hhits tag)) as (Hin & pre & post & Heq).
      { apply elem_of_cons. by left. }
      by exists tag, pre, post.
    + intros (tag & pre & post & Hin & Heq) Hnil.
      assert (tag ∈ hits) as Hh by (apply Hhits; split; [done|by exists pre, post]).
      rewrite Hnil in Hh. by apply elem_of_nil in Hh.
  - intros Hin Hnil.
    assert ("" ∈ hits) as Hh.
    { apply Hhits. split; [done|]. by exists [], payload. }
    rewrite Hnil in Hh. by apply elem_of_nil in Hh.
Qed.

(** X12. [handlePacket] panics on exactly two kinds of frame: one without a
    network layer, and one with a TCP layer and no application layer while
    the detector has at least one tag.  Every other frame is handled to the
    end. *)
Theorem handlePacket_panics_iff det packet :
  (∃ trace, handlePacket det packet = Panic trace)
  ↔ NetworkLayer packet = None
    ∨ (is_Some (TCPLayer packet) ∧ Tags det ≠ [] ∧ ApplicationLayer packet = None).
Proof.
  unfold handlePacket.
  destruct (NetworkLayer packet) as [flow|] eqn:Hnet.
  2:{ split; [by left|]. intros _. by exists []. }
  destruct (classify det (Dst flow) packet) as [det1 tr1] eqn:Ecl.
  assert (Tags det1 = Tags det) as HT.
  { pose proof (classify_config det (Dst flow) packet) as Hc. rewrite Ecl in Hc. apply Hc. }
  split.
  - intros [trace Hp]. right.
    destruct (TCPLayer packet) as [tcp|] eqn:Htcp.
    2:{ unfold afterClassify in Hp. by rewrite Htcp in Hp. }
    split; [done|].
    destruct (Tags det) as [|tag tags] eqn:Etags.
    { destruct (afterClassify_returns det1 packet flow tr1 Hnet) as [extra He].
      { right. left. by rewrite HT. }
      by rewrite He in Hp. }
    split; [done|].
    destruct (ApplicationLayer packet) as [payload|] eqn:Hpay; [|done].
    destruct (afterClassify_returns det1 packet flow tr1 Hnet) as [extra He].
    { right. right. rewrite Hpay. by eexists. }
    by rewrite He in Hp.
  - intros [?|([tcp Htcp] & Htags & Hpay)]; [done|].
    unfold afterClassify, checkForTags. rewrite Htcp, HT.
    destruct (Tags det) as [|tag tags]; [done|].
    rewrite checkForTags_loop_no_payload by done. by exists tr1.
Qed.

(** X13. A frame with a network layer and no TCP layer is counted and
    dropped: [handlePacket] returns with the capture length added to the
    byte total and the v4 or v6 counter incremented by address length,
    having logged the address warning exactly when the destination is
    neither 4 nor 16 bytes long and nothing else, without scanning for
    tags, calling [IsRegistered] or forwarding, whatever the tags and the
    payload. *)
Theorem no_tcp_frame_dropped det packet flow :
  NetworkLayer packet = Some flow →
  TCPLayer packet = None →
  ∃ det' trace,
    handlePacket det packet = Done (det', trace)
    ∧ (trace = [] ∨ trace = [Warn "IP is not valid as IPv4 or IPv6"])
    ∧ calls trace = []
    ∧ stats det' =
        {| BytesTotal := uint64 (BytesTotal (stats det) + uint64 (CaptureLength packet));
           V4PacketCount :=
             count_if (bool_decide (length (Raw (Dst flow)) = 4))
               (V4PacketCount (stats det));
           V6PacketCount :=
             count_if (bool_decide (length (Raw (Dst flow)) = 16))
               (V6PacketCount (stats det)) |}
    ∧ (trace = [Warn "IP is not valid as IPv4 or IPv6"]
       ↔ length (Raw (Dst flow)) ≠ 4 ∧ length (Raw (Dst flow)) ≠ 16)
    ∧ Tags det' = Tags det
    ∧ IsRegistered det' = IsRegistered det.
Proof.
  intros Hnet Htcp. unfold handlePacket. rewrite Hnet.
  destruct (classify det (Dst flow) packet) as [det1 tr1] eqn:Ecl.
  unfold afterClassify. rewrite Htcp. exists det1, tr1. split; [done|].
  pose proof (classify_stats det (Dst flow) packet) as Hst.
  pose proof (classify_config det (Dst flow) packet) as (_ & _ & HI & HT & _).
  rewrite Ecl in Hst, HI, HT. cbn [fst] in Hst, HI, HT.
  assert ((tr1 = [] ∨ tr1 = [Warn "IP is not valid as IPv4 or IPv6"])
          ∧ calls tr1 = []
          ∧ (tr1 = [Warn "IP is not valid as IPv4 or IPv6"]
             ↔ length (Raw (Dst flow)) ≠ 4 ∧ length (Raw (Dst flow)) ≠ 16))
    as (Hshape & Hcalls & Hwarn).
  { revert Ecl. unfold classify.
    repeat case_decide; intros [= _ <-];
      (split; [by (left + right)|]); (split; [done|]);
      (split; [try done; intros _; split; lia|try done; intros [? ?]; lia]). }
  split; [exact Hshape|]. split; [exact Hcalls|]. split; [exact Hst|].
  split; [exact Hwarn|]. by split.
Qed.

(** *** Start-up: the device check and [Run] *)

Section Startup.

(** [pcap.Interface]; the detector reads its name only. *)
Record Interface : Type := mkInterface { Name : string }.

(** The pcap handle and the calls [Run] makes on it. *)
Variable Handle : Type.
Variable BlockForever : Z.
Variable OpenLive : string → Z → bool → Z → Handle + string.
Variable SetBPFFilter : Handle → string → option string.
(** The frames [gopacket.NewPacketSource(handler, ...).Packets()] delivers
    until its channel is closed. *)
Variable Packets : Handle → list Packet.

(** The package-level [iface] and [buffer], lines 168-172. *)
Definition iface : string := "wlp4s0".
Definition buffer : Z := 1600.

(** The loop of [deviceExists], lines 160-165. *)
Fixpoint deviceExists_loop (devices : list Interface) (name : string) : bool :=
  match devices with
  | [] => false
  | device :: devices' =>
      if decide (Name device = name) then true else deviceExists_loop devices' name
  end.

(** [deviceExists], lines 154-166.  [FindAllDevs] is the result of
    [pcap.FindAllDevs()]; on its error [log.Panic] panics. *)
Definition deviceExists (FindAllDevs : list Interface + string) (name : string) :
    Result bool :=
  match FindAllDevs with
  | inr _ => Panic []
  | inl devices => Done (deviceExists_loop devices name)
  end.

(** How [Run] ends: [log.Fatal] with its arguments, a panic, or a return
    with the detector and what it logged. *)
Inductive RunResult : Type :=
| Fatal (args : list string)
| Crashed (trace : list Event)
| Returned (det : Detector) (trace : list Event).

(** [Run], lines 48-77.  The reporting goroutine started on line 67 runs
    beside the capture loop and is not part of this function's result. *)
Definition Run (det : Detector) (FindAllDevs : list Interface + string) : RunResult :=
  match deviceExists FindAllDevs (Iface det) with
  | Panic tr => Crashed tr
  | Done false => Fatal ["Unable to open device "; iface]
  | Done true =>
      match OpenLive (Iface det) buffer false BlockForever with
      | inr e => Fatal [e]
      | inl handler =>
          let filter := generateFilters (FilterList det) in
          match SetBPFFilter handler filter with
          | Some e => Fatal [e]
          | None =>
              match capture_loop det (Packets handler) [] with
              | Panic tr => Crashed tr
              | Done (det', tr) => Returned det' tr
              end
          end
      end
  end.

Lemma deviceExists_loop_spec devices name :
  deviceExists_loop devices name = true ↔ name ∈ Name <$> devices.
Proof.
  induction devices as [|device devices IH]; cbn [deviceExists_loop fmap list_fmap].
  - split; [done|]. intros Hin. by apply elem_of_nil in Hin.
  - rewrite elem_of_cons. case_decide as Hname.
    + split; [|done]. intros _. by left.
    + rewrite IH. split; [by right|]. intros [Heq|Hin]; [by subst|done].
Qed.

(** X14. [deviceExists] answers true exactly when the list of devices has
    one of that name, and panics when the list cannot be had. *)
Theorem deviceExists_spec devices e name :
  deviceExists (inl devices) name = Done (bool_decide (name ∈ Name <$> devices))
  ∧ deviceExists (inr e) name = Panic [].
Proof.
  split; [|done]. unfold deviceExists. f_equal.
  destruct (deviceExists_loop devices name) eqn:El.
  - symmetry. apply bool_decide_eq_true. by apply deviceExists_loop_spec.
  - symmetry. apply bool_decide_eq_false. intros Hin%deviceExists_loop_spec. congruence.
Qed.

(** X15. [Run] gets to its capture loop, and returns what the loop returns,
    exactly when the device list was read and names [det.Iface], the device
    was opened with the package's buffer size, not promiscuous, and the
    filter [generateFilters det.FilterList] was accepted.  When the device
    is missing from the list the fatal message names the package-level
    [iface], whatever [det.Iface] is. *)
Theorem Run_returns_iff det FindAllDevs det' trace :
  (Run det FindAllDevs = Returned det' trace
   ↔ ∃ devices handler,
       FindAllDevs = inl devices
       ∧ Iface det ∈ Name <$> devices
       ∧ OpenLive (Iface det) 1600 false BlockForever = inl handler
       ∧ SetBPFFilter handler (generateFilters (FilterList det)) = None
       ∧ capture_loop det (Packets handler) [] = Done (det', trace))
  ∧ (∀ devices, FindAllDevs = inl devices → Iface det ∉ Name <$> devices →
       Run det FindAllDevs = Fatal ["Unable to open device "; "wlp4s0"]).
Proof.
  unfold Run, deviceExists. split.
  - destruct FindAllDevs as [devices|e].
    2:{ split; [done|]. by intros (? & ? & ? & _). }
    destruct (deviceExists_loop devices (Iface det)) eqn:El.
    2:{ split; [done|]. intros (devs & h & [= <-] & Hin%deviceExists_loop_spec & _).
        congruence. }
    apply deviceExists_loop_spec in El.
    change buffer with 1600%Z.
    destruct (OpenLive (Iface det) 1600 false BlockForever) as [handler|e] eqn:Eo.
    2:{ split; [done|]. by intros (? & ? & _ & _ & ? & _). }
    destruct (SetBPFFilter handler (generateFilters (FilterList det))) as [e|] eqn:Ef.
    { split; [done|]. intros (? & h & _ & _ & [= <-] & Hf & _). congruence. }
    destruct (capture_loop det (Packets handler) []) as [[d tr]|tr] eqn:Ec.
    + split.
      * intros [= <- <-]. by exists devices, handler.
      * intros (? & h & _ & _ & [= <-] & _ & Hc). rewrite Ec in Hc. by injection Hc as <- <-.
    + split; [done|]. intros (? & h & _ & _ & [= <-] & _ & Hc). congruence.
  - intros devices -> Hnot.
    destruct (deviceExists_loop devices (Iface det)) eqn:El; [|done].
    by apply deviceExists_loop_spec in El.
Qed.

End Startup.

End Capture.

(** C9 (witness): [frame_syn], from 10.0.0.1 to 10.0.0.5, at the detector
    [main] builds. *)
Lemma C9_match_check_arguments_transposed_witness :
  let show : Endpoint → string :=
    λ e, if decide (Raw e = [10; 0; 0; 5]%Z) then "10.0.0.5" else "10.0.0.1" in
  ∃ det' before c,
    handlePacket show main_detector frame_syn =
      Done (det', before ++ [called c;
              Println_forward {| Raw := [10; 0; 0; 1]%Z |} {| Raw := [10; 0; 0; 5]%Z |}])
    ∧ calls before = []
    ∧ arg_src c = "10.0.0.5"
    ∧ arg_dst c = "10.0.0.1"
    ∧ arg_dstPort c = 443%Z.
Proof.
  intros show.
  exact (C9_match_check_arguments_transposed show main_detector frame_syn
           {| Src := {| Raw := [10; 0; 0; 1]%Z |}; Dst := {| Raw := [10; 0; 0; 5]%Z |} |}
           {| DstPort := 443 |} eq_refl eq_refl (or_introl eq_refl)).
Defined.

(** X9 (witness): [frame_syn] at the detector [main] builds: 54 bytes and
    one v4 packet. *)
Lemma handlePacket_accounting_witness :
  let show : Endpoint → string := λ _, "endpoint" in
  ∃ det' trace,
    handlePacket show main_detector frame_syn = Done (det', trace)
    ∧ BytesTotal (stats det') = 54%Z
    ∧ V4PacketCount (stats det') = 1%Z
    ∧ V6PacketCount (stats det') = 0%Z
    ∧ Tags det' = [].
Proof.
  intros show.
  destruct (handlePacket show main_detector frame_syn) as [[det' trace]|trace] eqn:E;
    [|discriminate E].
  destruct (handlePacket_accounting show main_detector frame_syn det' trace E)
    as (flow & Hnet & Hb & H4 & H6 & _ & _ & _ & HT & _).
  injection Hnet as <-.
  exists det', trace. split; [done|]. split; [exact Hb|]. split; [exact H4|].
  split; [exact H6|exact HT].
Defined.

(** X10 (witness): [frame_syn] then [frame_dst6] at the detector [main]
    builds: 114 bytes, one v4 packet, no v6 packet. *)
Lemma capture_loop_totals_witness :
  let show : Endpoint → string := λ _, "endpoint" in
  ∃ det' trace,
    capture_loop show main_detector [frame_syn; frame_dst6] [] = Done (det', trace)
    ∧ BytesTotal (stats det') = 114%Z
    ∧ V4PacketCount (stats det') = 1%Z
    ∧ V6PacketCount (stats det') = 0%Z
    ∧ exit det' = true.
Proof.
  intros show.
  assert (in_range (stats main_detector)) as Hrange by (repeat split; done).
  destruct (capture_loop show main_detector [frame_syn; frame_dst6] [])
    as [[det' trace]|trace] eqn:E; [|discriminate E].
  destruct (capture_loop_totals show main_detector [frame_syn; frame_dst6] det' trace
              Hrange E) as (Hb & H4 & H6 & _ & Hexit & _).
  exists det', trace. split; [done|]. split; [exact Hb|]. split; [exact H4|].
  split; [exact H6|exact Hexit].
Defined.

(** X11 (witness): the payload "hi" against the tags "hi", "" and "zz":
    two lines, for "hi" and for the empty tag. *)
Lemma checkForTags_confirms_witness :
  checkForTags (with_tags main_detector ["hi"; ""; "zz"]) frame_dst6 []
  = Done (replicate 2 (Println_confirmed {| Raw := [10; 0; 0; 1]%Z |}
                                          {| Raw := [1; 2; 3; 4; 5; 6]%Z |})).
Proof.
  exact (proj1 (checkForTags_confirms (with_tags main_detector ["hi"; ""; "zz"]) frame_dst6
                  {| Src := {| Raw := [10; 0; 0; 1]%Z |};
                     Dst := {| Raw := [1; 2; 3; 4; 5; 6]%Z |} |}
                  [104; 105]%Z [] eq_refl eq_refl)).
Defined.

(** A DNS query over UDP from 10.0.0.1 to 10.0.0.53: a network layer and a
    payload, no TCP layer. *)
Definition frame_udp : Packet :=
  {| NetworkLayer := Some {| Src := {| Raw := [10; 0; 0; 1]%Z |};
                             Dst := {| Raw := [10; 0; 0; 53]%Z |} |};
     CaptureLength := 70;
     TCPLayer := None;
     ApplicationLayer := Some [104; 105]%Z |}.

(** X13 (witness): [frame_udp] at a detector looking for the tag "hi". *)
Lemma no_tcp_frame_dropped_witness :
  let show : Endpoint → string := λ _, "endpoint" in
  ∃ det' trace,
    handlePacket show (with_tags main_detector ["hi"]) frame_udp = Done (det', trace)
    ∧ calls trace = []
    ∧ stats det' = {| BytesTotal := 70; V4PacketCount := 1; V6PacketCount := 0 |}.
Proof.
  intros show.
  destruct (no_tcp_frame_dropped show (with_tags main_detector ["hi"]) frame_udp
              {| Src := {| Raw := [10; 0; 0; 1]%Z |}; Dst := {| Raw := [10; 0; 0; 53]%Z |} |}
              eq_refl eq_refl)
    as (det' & trace & Hdone & _ & Hcalls & Hstats & _).
  exists det', trace. split; [exact Hdone|]. split; [exact Hcalls|exact Hstats].
Defined.

(** *** The capture filter *)

Lemma append_assoc (a b c : string) : (a +:+ b) +:+ c = a +:+ (b +:+ c).
Proof.
  induction a as [|ch a IH]; [done|].
  change (String ch ((a +:+ b) +:+ c) = String ch (a +:+ (b +:+ c))).
  by rewrite IH.
Qed.

Lemma append_empty_r (a : string) : a +:+ "" = a.
Proof.
  induction a as [|ch a IH]; [done|].
  change (String ch (a +:+ "") = String ch a). by rewrite IH.
Qed.

Lemma generateFilters_loop rest out :
  foldl (λ out entry, out +:+ (" and not src " +:+ entry)) out rest
  = out +:+ exclusions rest.
Proof.
  revert out. induction rest as [|entry rest IH]; intros out; simpl.
  - by rewrite append_empty_r.
  - rewrite IH. by rewrite !append_assoc.
Qed.

(** C10. [generateFilters] returns the empty string for an empty list; for
    a non-empty list it returns "tcp and not src " and the first address,
    then " and not src " and each remaining address in order, so the filter
    begins with the conjunct "tcp". *)
Theorem C10_generateFilters first rest :
  generateFilters [] = ""
  ∧ generateFilters (first :: rest) = "tcp and not src " +:+ first +:+ exclusions rest
  ∧ generateFilters (first :: rest) = "tcp and " +:+ ("not src " +:+ first +:+ exclusions rest).
Proof.
  split; [done|].
  unfold generateFilters. rewrite generateFilters_loop, append_assoc.
  split; [done|]. done.
Qed.

(** X16. The filter is empty only for an empty list: as soon as one
    address is excluded, capture is restricted to TCP. *)
Theorem generateFilters_empty_iff filterList :
  generateFilters filterList = "" ↔ filterList = [].
Proof.
  split; [|by intros ->].
  destruct filterList as [|first rest]; [done|].
  unfold generateFilters. rewrite generateFilters_loop, append_assoc. done.
Qed.




Example generateFilters_main :
  generateFilters ["192.168.1.104"] = "tcp and not src 192.168.1.104".
Proof. reflexivity. Qed.

Example generateFilters_three :
  generateFilters ["10.0.0.1"; "10.0.0.2"; "fe80::1"]
  = "tcp and not src 10.0.0.1 and not src 10.0.0.2 and not src fe80::1".
Proof. reflexivity. Qed.

End Detector.
